(** * TermSnap: the Nebula -> TermSnap batch renamer

    A shallow embedding of [rename_nebula_to_termsnap.py] and the
    properties its specification states about it.

    - [PyStr]: the part of Python's [str] the script uses
      ([str.replace], [in], [!=]).
    - [Rules]: the rule list of [main] and the in-memory transformation
      performed by the [for old, new in replacements] loop.
    - [FS] and [Renamer]: the script in a sheltered environment, where
      every path is a file of its own and the console can encode every
      text: files, the disk, the console, the [try/except] monad,
      [replace_in_file], [rglob] and [main].
    - [Env] and [Script]: the script in the general environment, where
      several paths can name one file (symbolic and hard links) and
      [print] raises when the console cannot encode a path or a message.
      Theorem [sheltered_run] shows that the first is the second without
      links and with a console that encodes every text. *)

From Stdlib Require Import String Ascii Arith Lia List.
From stdpp Require Import gmap strings list fin_maps pretty.

Local Open Scope string_scope.

(* ===================================================================== *)
(** ** Python strings *)
(* ===================================================================== *)

(** A text is a [string], the sequence of its characters.  The script
    looks at a text only through [str.replace] with the literals of its
    rule list and through [!=]. *)

Module PyStr.

(** [s.startswith(p)] *)
Fixpoint startswith (p s : string) : bool :=
  match p, s with
  | EmptyString, _ => true
  | String _ _, EmptyString => false
  | String a p', String b s' => if Ascii.eqb a b then startswith p' s' else false
  end.

(** [s[n:]] *)
Fixpoint skipn (n : nat) (s : string) : string :=
  match n, s with
  | O, _ => s
  | S _, EmptyString => EmptyString
  | S k, String _ s' => skipn k s'
  end.

(** [p in s] *)
Fixpoint occurs (p s : string) : bool :=
  startswith p s ||
  match s with
  | EmptyString => false
  | String _ s' => occurs p s'
  end.

(** [s.count(c)] for a one-character [c]. *)
Fixpoint count (c : ascii) (s : string) : nat :=
  match s with
  | EmptyString => 0
  | String a s' => (if Ascii.eqb c a then 1 else 0) + count c s'
  end.

(** The scan of [str.replace] for a non-empty [old]: left to right, the
    leftmost match is replaced and the scan resumes after it, so matches
    never overlap.  [pending] counts the characters of the current match
    that are still to be stepped over. *)
Fixpoint replace_scan (old new : string) (pending : nat) (s : string) : string :=
  match s with
  | EmptyString => EmptyString
  | String c s' =>
      match pending with
      | S k => replace_scan old new k s'
      | O =>
          if startswith old s
          then new ++ replace_scan old new (String.length old - 1) s'
          else String c (replace_scan old new 0 s')
      end
  end.

(** [str.replace] with an empty [old] puts [new] in front of every
    character and at the end. *)
Fixpoint intersperse (new s : string) : string :=
  match s with
  | EmptyString => new
  | String c s' => new ++ String c (intersperse new s')
  end.

(** [s.replace(old, new)] *)
Definition replace (old new s : string) : string :=
  match old with
  | EmptyString => intersperse new s
  | String _ _ => replace_scan old new 0 s
  end.

End PyStr.

(* ===================================================================== *)
(** ** The rule list and the replacement loop *)
(* ===================================================================== *)

Module Rules.

Definition rule : Type := string * string.

(** The double quote of the script's literals. *)
Definition dq : string := String (ascii_of_nat 34) EmptyString.
(** The backslash of the script's literals. *)
Definition bs : string := String (ascii_of_nat 92) EmptyString.

(** [replacements] of [main], in the order of the source. *)
Definition replacements : list rule :=
  [ ("namespace Nebula", "namespace TermSnap");
    ("using Nebula", "using TermSnap");
    ("xmlns:local=" ++ dq ++ "clr-namespace:Nebula",
     "xmlns:local=" ++ dq ++ "clr-namespace:TermSnap");
    ("pack://application:,,,/Nebula;component",
     "pack://application:,,,/TermSnap;component");
    (dq ++ "Nebula Terminal" ++ dq, dq ++ "TermSnap" ++ dq);
    ("'Nebula Terminal'", "'TermSnap'");
    (dq ++ "Nebula" ++ dq, dq ++ "TermSnap" ++ dq);
    ("'Nebula'", "'TermSnap'");
    ("Nebula_MCP", "TermSnap_MCP");
    ("Nebula.", "TermSnap.");
    (bs ++ "Nebula" ++ bs, bs ++ "TermSnap" ++ bs);
    ("/Nebula/", "/TermSnap/");
    ("# Nebula", "# TermSnap");
    ("// Nebula", "// TermSnap") ].

(** One turn of the loop body: [content = content.replace(old, new)]. *)
Definition apply_rule (content : string) (r : rule) : string :=
  PyStr.replace (fst r) (snd r) content.

(** [for old, new in replacements: content = content.replace(old, new)] *)
Definition apply_rules (rules : list rule) (content : string) : string :=
  fold_left apply_rule rules content.

(** Some search literal of [rules] occurs in [s]. *)
Definition any_literal (rules : list rule) (s : string) : bool :=
  existsb (fun r => PyStr.occurs (fst r) s) rules.

(** Every rule of the list trades a literal with a [c] for a text
    without one. *)
Definition sheds (c : ascii) (rules : list rule) : Prop :=
  Forall (fun r => PyStr.count c (snd r) = 0 /\ 0 < PyStr.count c (fst r)) rules.

End Rules.

(* ===================================================================== *)
(** ** Files, the disk, the console *)
(* ===================================================================== *)

Module FS.

(** A path is the list of its components below [ROOT_DIR]. *)
Abbreviation path := (list string).

(** The exceptions the script can meet, all subclasses of [Exception]:
    [OSError] from [open], [read] and [write], [UnicodeDecodeError] from
    decoding the file, [UnicodeEncodeError] from [print] when the console
    cannot encode a text.  [msg] is what [str(e)] shows. *)
Inductive exn :=
| OSError (msg : string)
| UnicodeDecodeError (msg : string)
| UnicodeEncodeError (msg : string).

Definition str_exn (e : exn) : string :=
  match e with
  | OSError m => m
  | UnicodeDecodeError m => m
  | UnicodeEncodeError m => m
  end.

Inductive result (A : Type) :=
| Ok (a : A)
| Raise (e : exn).
Arguments Ok {A} a.
Arguments Raise {A} e.

(** How [open(path, 'w')] followed by [f.write(content)] ends for a file:
    both succeed; [open] raises and the file is untouched; or [open]
    truncates the file and the write raises after [kept] characters. *)
Inductive write_outcome :=
| WriteOk
| OpenFails (e : exn)
| WriteFails (e : exn) (kept : nat).

(** A directory entry: [data] is what [open(path, 'r', encoding='utf-8')]
    and [f.read()] give, the decoded text or the exception. *)
Record file := File { data : result string; on_write : write_outcome }.

Inductive mode := R | W.

Inductive group := CSharp | Xaml | Other.

(** The lines [print] is called with. *)
Inductive line :=
| LProcessing (g : group) (n : nat)
| LOk (rel : path)
| LError (file_path : path) (e : exn)
| LRule (blank_before : bool)
| LDone
| LChanged (g : group) (changed total : nat)
| LTotal (n : nat).

Inductive event :=
| Opened (p : path) (m : mode)
| Printed (l : line).

Record world := World { disk : gmap path file; log : list event }.

Definition record (e : event) (w : world) : world :=
  World (disk w) (log w ++ [e]).

(** Computations that read and change the world and may raise. *)
Definition M (A : Type) : Type := world -> result A * world.

Definition ret {A} (a : A) : M A := fun w => (Ok a, w).

Definition bind {A B} (m : M A) (k : A -> M B) : M B :=
  fun w => match m w with
           | (Ok a, w') => k a w'
           | (Raise e, w') => (Raise e, w')
           end.

(** [try: body except Exception as e: handler(e)] *)
Definition try_except {A} (body : M A) (handler : exn -> M A) : M A :=
  fun w => match body w with
           | (Ok a, w') => (Ok a, w')
           | (Raise e, w') => handler e w'
           end.

Notation "x <- m ;; k" := (bind m (fun x => k))
  (at level 100, m at next level, right associativity).
Notation "m ;;; k" := (bind m (fun _ => k))
  (at level 100, right associativity).

(** [print(...)] on a console that can encode every text; [Env.print]
    below is [print] on a console that cannot. *)
Definition print (l : line) : M unit :=
  fun w => (Ok tt, record (Printed l) w).

(** [with open(p, 'r', encoding='utf-8') as f: f.read()] *)
Definition read_text (p : path) : M string :=
  fun w =>
    let w' := record (Opened p R) w in
    match disk w !! p with
    | None => (Raise (OSError "No such file or directory"), w')
    | Some f =>
        match data f with
        | Ok s => (Ok s, w')
        | Raise e => (Raise e, w')
        end
    end.

(** The file after an attempt to write [content] to it. *)
Definition written (f : file) (content : string) : result unit * file :=
  match on_write f with
  | WriteOk => (Ok tt, File (Ok content) (on_write f))
  | OpenFails e => (Raise e, f)
  | WriteFails e kept =>
      (Raise e, File (Ok (String.substring 0 kept content)) (on_write f))
  end.

(** [with open(p, 'w', encoding='utf-8') as f: f.write(content)];
    mode ['w'] creates a file that does not exist.  Here every path is a
    file of its own; [Env.write_text] below writes through links. *)
Definition write_text (p : path) (content : string) : M unit :=
  fun w =>
    let w' := record (Opened p W) w in
    match disk w !! p with
    | None => (Ok tt, World (<[p := File (Ok content) WriteOk]> (disk w)) (log w'))
    | Some f =>
        let '(r, f') := written f content in
        (r, World (<[p := f']> (disk w)) (log w'))
    end.

(** [fnmatch] for patterns of literal characters, [?] and [*]. *)
Fixpoint fnmatch (pat : string) : string -> bool :=
  match pat with
  | EmptyString => fun name => match name with EmptyString => true | _ => false end
  | String c pat' =>
      if Ascii.eqb c "*" then
        fix star (name : string) : bool :=
          fnmatch pat' name ||
          match name with
          | EmptyString => false
          | String _ name' => star name'
          end
      else
        fun name =>
          match name with
          | EmptyString => false
          | String d name' =>
              (Ascii.eqb c "?" || Ascii.eqb c d) && fnmatch pat' name'
          end
  end.

(** [pat] has no wildcard. *)
Fixpoint literal (pat : string) : bool :=
  match pat with
  | EmptyString => true
  | String c pat' => negb (Ascii.eqb c "*") && negb (Ascii.eqb c "?") && literal pat'
  end.

(** [p] with the components of [root] taken off its front. *)
Fixpoint relative_to (root p : path) : option path :=
  match root, p with
  | [], _ => Some p
  | _ :: _, [] => None
  | r :: root', c :: p' => if String.eqb r c then relative_to root' p' else None
  end.

(** [p] is an entry below [root] whose name matches [pattern]. *)
Definition globbed (root : path) (pattern : string) (p : path) : bool :=
  match relative_to root p with
  | Some rest =>
      match last rest with
      | Some name => fnmatch pattern name
      | None => false
      end
  | None => false
  end.

(** [list(root.rglob(pattern))]: the entries below [root], at any depth,
    whose name matches; each path once, in the order of the traversal. *)
Definition rglob (root : path) (pattern : string) : M (list path) :=
  fun w => (Ok (List.filter (globbed root pattern) (elements (dom (disk w)))), w).

Definition newline : string := String (ascii_of_nat 10) EmptyString.

Fixpoint repeat_str (s : string) (n : nat) : string :=
  match n with
  | O => EmptyString
  | S k => s ++ repeat_str s k
  end.

Definition processing_label (g : group) : string :=
  match g with CSharp => "C#" | Xaml => "XAML" | Other => "other" end.

Definition changed_label (g : group) : string :=
  match g with CSharp => "C#" | Xaml => "XAML" | Other => "Other" end.

(** The text of a printed line; [str_path] is [str] of a path under
    [ROOT_DIR], [str_rel] is [str] of a path relative to it. *)
Definition render (str_path str_rel : path -> string) (l : line) : string :=
  match l with
  | LProcessing g n =>
      (match g with CSharp => "" | _ => newline end)
      ++ "Processing " ++ pretty n ++ " " ++ processing_label g ++ " files..."
  | LOk rel => "  [OK] " ++ str_rel rel
  | LError file_path e =>
      "Error processing " ++ str_path file_path ++ ": " ++ str_exn e
  | LRule blank_before =>
      (if blank_before then newline else "") ++ repeat_str "=" 60
  | LDone => "[DONE] Nebula -> TermSnap conversion complete!"
  | LChanged g changed total =>
      "   " ++ changed_label g ++ " files changed: "
      ++ pretty changed ++ "/" ++ pretty total
  | LTotal n => "   Total: " ++ pretty n ++ " files"
  end.

End FS.

(* ===================================================================== *)
(** ** The script *)
(* ===================================================================== *)

Module Renamer.
Import FS.

Definition ROOT_DIR : path := [].
Definition SRC_DIR : path := ROOT_DIR ++ ["src"].

(** The [try] block of [replace_in_file]. *)
Definition replace_in_file_try (file_path : path) (replacements : list Rules.rule)
  : M bool :=
  content <- read_text file_path ;;
  let original_content := content in
  let content := Rules.apply_rules replacements content in
  if negb (String.eqb content original_content)
  then write_text file_path content ;;; ret true
  else ret false.

Definition replace_in_file (file_path : path) (replacements : list Rules.rule)
  : M bool :=
  try_except
    (replace_in_file_try file_path replacements)
    (fun e => print (LError file_path e) ;;; ret false).

(** [for f in files: if replace_in_file(f, replacements): changed += 1; print(...)] *)
Fixpoint process (files : list path) (replacements : list Rules.rule)
    (changed : nat) : M nat :=
  match files with
  | [] => ret changed
  | f :: rest =>
      b <- replace_in_file f replacements ;;
      if b : bool
      then print (LOk f) ;;; process rest replacements (changed + 1)
      else process rest replacements changed
  end.

(** [for pattern in patterns: other_files.extend(root.rglob(pattern))] *)
Fixpoint extend_all (root : path) (patterns : list string)
    (other_files : list path) : M (list path) :=
  match patterns with
  | [] => ret other_files
  | pattern :: rest =>
      found <- rglob root pattern ;;
      extend_all root rest (other_files ++ found)
  end.

Definition main : M unit :=
  let replacements := Rules.replacements in
  cs_files <- rglob SRC_DIR "*.cs" ;;
  print (LProcessing CSharp (length cs_files)) ;;;
  cs_changed <- process cs_files replacements 0 ;;
  xaml_files <- rglob SRC_DIR "*.xaml" ;;
  print (LProcessing Xaml (length xaml_files)) ;;;
  xaml_changed <- process xaml_files replacements 0 ;;
  other_files <- extend_all ROOT_DIR ["*.json"; "*.config"; "*.xml"; "*.md"] [] ;;
  print (LProcessing Other (length other_files)) ;;;
  other_changed <- process other_files replacements 0 ;;
  print (LRule true) ;;;
  print LDone ;;;
  print (LRule false) ;;;
  print (LChanged CSharp cs_changed (length cs_files)) ;;;
  print (LChanged Xaml xaml_changed (length xaml_files)) ;;;
  print (LChanged Other other_changed (length other_files)) ;;;
  print (LTotal (cs_changed + xaml_changed + other_changed)).

(** *** One call, as a function of the entry it is given

    The three functions below summarise [replace_in_file]; lemma
    [replace_in_file_run] proves that they are what a call does. *)

(** The flag of a call on an entry ([None]: no such entry). *)
Definition verdict (rules : list Rules.rule) (o : option file) : bool :=
  match o with
  | Some (File (Ok s) WriteOk) => negb (String.eqb (Rules.apply_rules rules s) s)
  | _ => false
  end.

(** The entry after a call on it. *)
Definition rewritten (rules : list Rules.rule) (f : file) : file :=
  match data f with
  | Ok s =>
      let s' := Rules.apply_rules rules s in
      if negb (String.eqb s' s) then snd (written f s') else f
  | Raise _ => f
  end.

(** The events of a call. *)
Definition call_events (rules : list Rules.rule) (p : path) (o : option file)
  : list event :=
  Opened p R ::
  match o with
  | None => [Printed (LError p (OSError "No such file or directory"))]
  | Some f =>
      match data f with
      | Raise e => [Printed (LError p e)]
      | Ok s =>
          let s' := Rules.apply_rules rules s in
          if negb (String.eqb s' s)
          then Opened p W ::
               match fst (written f s') with
               | Raise e => [Printed (LError p e)]
               | Ok _ => []
               end
          else []
      end
  end.

(** The events of one turn of the loop of [process]. *)
Definition turn_events (rules : list Rules.rule) (d : gmap path file) (p : path)
  : list event :=
  call_events rules p (d !! p)
  ++ (if verdict rules (d !! p) then [Printed (LOk p)] else []).

(** The number of [files] on which a call on the disk [d] returns [True]. *)
Definition changed_count (rules : list Rules.rule) (d : gmap path file)
    (files : list path) : nat :=
  length (List.filter (fun p => verdict rules (d !! p)) files).

(** The disk after a call on each of [files] in turn. *)
Definition processed (rules : list Rules.rule) (files : list path)
    (d : gmap path file) : gmap path file :=
  fold_left (fun d p => alter (rewritten rules) p d) files d.

(** *** The three file groups *)

Definition cs_files (d : gmap path file) : list path :=
  List.filter (globbed SRC_DIR "*.cs") (elements (dom d)).

Definition xaml_files (d : gmap path file) : list path :=
  List.filter (globbed SRC_DIR "*.xaml") (elements (dom d)).

Definition other_patterns : list string := ["*.json"; "*.config"; "*.xml"; "*.md"].

Definition other_files (d : gmap path file) : list path :=
  flat_map (fun pattern => List.filter (globbed ROOT_DIR pattern) (elements (dom d)))
           other_patterns.

(** The patterns of the three passes together. *)
Definition six_patterns : list string :=
  ["*.cs"; "*.xaml"] ++ other_patterns.

(** [p] is in the scope of one of the three passes. *)
Definition in_scope (p : path) : bool :=
  globbed SRC_DIR "*.cs" p || globbed SRC_DIR "*.xaml" p
  || existsb (fun pattern => globbed ROOT_DIR pattern p) other_patterns.

(** [name.endswith(suffix)] *)
Fixpoint endswith (suffix name : string) : bool :=
  String.eqb suffix name ||
  match name with
  | EmptyString => false
  | String _ name' => endswith suffix name'
  end.

(** The summary block at the end of [main]. *)
Definition summary (cs_changed cs_total xaml_changed xaml_total
                    other_changed other_total : nat) : list event :=
  [ Printed (LRule true); Printed LDone; Printed (LRule false);
    Printed (LChanged CSharp cs_changed cs_total);
    Printed (LChanged Xaml xaml_changed xaml_total);
    Printed (LChanged Other other_changed other_total);
    Printed (LTotal (cs_changed + xaml_changed + other_changed)) ].

(** The events of the three passes of a run on the disk [d]. *)
Definition pass_events (d : gmap path file) : list event :=
  let rules := Rules.replacements in
  [Printed (LProcessing CSharp (length (cs_files d)))]
  ++ flat_map (turn_events rules d) (cs_files d)
  ++ [Printed (LProcessing Xaml (length (xaml_files d)))]
  ++ flat_map (turn_events rules d) (xaml_files d)
  ++ [Printed (LProcessing Other (length (other_files d)))]
  ++ flat_map (turn_events rules d) (other_files d).

(** The summary block of a run on the disk [d]. *)
Definition run_summary (d : gmap path file) : list event :=
  let rules := Rules.replacements in
  summary (changed_count rules d (cs_files d)) (length (cs_files d))
          (changed_count rules d (xaml_files d)) (length (xaml_files d))
          (changed_count rules d (other_files d)) (length (other_files d)).

(** The events of a whole run on the disk [d]. *)
Definition run_events (d : gmap path file) : list event :=
  pass_events d ++ run_summary d.

(** The flag a call on [p] returns on the disk [d]. *)
Definition returns_true (rules : list Rules.rule) (d : gmap path file) (p : path)
  : bool :=
  match fst (replace_in_file p rules (World d [])) with
  | Ok changed => changed
  | Raise _ => false
  end.

(** The disk after a whole run on the disk [d]. *)
Definition run_disk (d : gmap path file) : gmap path file :=
  let rules := Rules.replacements in
  processed rules (other_files d)
    (processed rules (xaml_files d) (processed rules (cs_files d) d)).

(** The lines printed among some events. *)
Definition lines_of (evs : list event) : list line :=
  flat_map (fun e => match e with Printed l => [l] | Opened _ _ => [] end) evs.

End Renamer.

(* ===================================================================== *)
(** ** A small project *)
(* ===================================================================== *)

Module Scenario.
Import FS.

Definition first : path := ["src"; "App.cs"].
Definition second : path := ["src"; "Bad.cs"].
Definition third : path := ["src"; "Core.cs"].
Definition readme : path := ["readme.md"].
Definition notes : path := ["notes.txt"].

Definition undecodable : exn := UnicodeDecodeError "invalid start byte".
Definition denied : exn := OSError "Permission denied".

(** Three source files, the second of which is not UTF-8; a readme and
    a text file at the root. *)
Definition disk0 : gmap path file :=
  <[ first := File (Ok "namespace Nebula.Core { }") WriteOk ]>
  (<[ second := File (Raise undecodable) WriteOk ]>
  (<[ third := File (Ok "class Core { }") WriteOk ]>
  (<[ readme := File (Ok "// Nebula") WriteOk ]>
  (<[ notes := File (Ok "// Nebula") WriteOk ]> ∅)))).

(** The same project with the second file readable. *)
Definition disk1 : gmap path file :=
  <[ second := File (Ok "using Nebula;") WriteOk ]> disk0.

(** A project whose only file is read-only. *)
Definition disk2 : gmap path file :=
  {[ first := File (Ok "using Nebula;") (OpenFails denied) ]}.

End Scenario.

(* ===================================================================== *)
(** ** What a run lets one observe *)
(* ===================================================================== *)

Module Observe.
Import FS.

(** The paths opened for reading among some events, in order. *)
Definition reads (evs : list event) : list path :=
  flat_map (fun e => match e with Opened p R => [p] | _ => [] end) evs.

(** The number of [OK] lines among some events. *)
Definition ok_count (evs : list event) : nat :=
  length (List.filter
            (fun e => match e with Printed (LOk _) => true | _ => false end) evs).

(** What a run prints when no pass finds a file. *)
Definition idle_output : list event :=
  [ Printed (LProcessing CSharp 0); Printed (LProcessing Xaml 0);
    Printed (LProcessing Other 0) ] ++ Renamer.summary 0 0 0 0 0 0.

(** The text a second call may still change: what a first call leaves in
    a file that can be read and written holds a search literal. *)
Definition leftover (rules : list Rules.rule) (o : option file) : bool :=
  match o with
  | Some (File (Ok s) WriteOk) =>
      Rules.any_literal rules (Rules.apply_rules rules s)
  | _ => false
  end.

(** A project whose only file takes five characters and then fails. *)
Definition torn_disk : gmap path file :=
  {[ Scenario.first := File (Ok "using Nebula;") (WriteFails Scenario.denied 5) ]}.

End Observe.

(* ===================================================================== *)
(** ** The general environment: links and a console with an encoding *)
(* ===================================================================== *)

Module Env.
Import FS.

(** [names] are the directory entries: the file (its inode number) each
    path leads to, through symbolic links if any; two paths with one
    number are two names of one file.  [files] are the files.  [encodes]
    tells which texts the encoding of [sys.stdout] can encode. *)
Record world := World {
  names : gmap path nat;
  files : gmap nat file;
  encodes : string -> bool;
  log : list event }.

Definition record (e : event) (w : world) : world :=
  World (names w) (files w) (encodes w) (log w ++ [e]).

Definition M (A : Type) : Type := world -> result A * world.

Definition ret {A} (a : A) : M A := fun w => (Ok a, w).

Definition bind {A B} (m : M A) (k : A -> M B) : M B :=
  fun w => match m w with
           | (Ok a, w') => k a w'
           | (Raise e, w') => (Raise e, w')
           end.

(** [try: body except Exception as e: handler(e)]; what the handler
    raises is not caught. *)
Definition try_except {A} (body : M A) (handler : exn -> M A) : M A :=
  fun w => match body w with
           | (Ok a, w') => (Ok a, w')
           | (Raise e, w') => handler e w'
           end.

Notation "x <~ m ;; k" := (bind m (fun x => k))
  (at level 100, m at next level, right associativity).
Notation "m ~;; k" := (bind m (fun _ => k))
  (at level 100, right associativity).

(** The texts of a line that are not fixed by the script: the components
    of a path and the message of an exception.  The rest of every line
    is ASCII text and decimal digits. *)
Definition texts (l : line) : list string :=
  match l with
  | LOk rel => rel
  | LError file_path e => file_path ++ [str_exn e]
  | _ => []
  end.

Definition printable (w : world) (l : line) : bool :=
  forallb (encodes w) (texts l).

(** [print(...)]: raises when the console cannot encode the line. *)
Definition print (l : line) : M unit :=
  fun w =>
    if printable w l
    then (Ok tt, record (Printed l) w)
    else (Raise (UnicodeEncodeError "codec can't encode characters"), w).

(** The file a path leads to. *)
Definition lookup_file (w : world) (p : path) : option file :=
  match names w !! p with
  | Some i => files w !! i
  | None => None
  end.

(** [with open(p, 'r', encoding='utf-8') as f: f.read()] *)
Definition read_text (p : path) : M string :=
  fun w =>
    let w' := record (Opened p R) w in
    match lookup_file w p with
    | None => (Raise (OSError "No such file or directory"), w')
    | Some f =>
        match data f with
        | Ok s => (Ok s, w')
        | Raise e => (Raise e, w')
        end
    end.

(** [with open(p, 'w', encoding='utf-8') as f: f.write(content)]: the
    write goes to the file the path leads to, whatever its other names;
    mode ['w'] creates the file when the path leads to none. *)
Definition write_text (p : path) (content : string) : M unit :=
  fun w =>
    let l := (log w ++ [Opened p W])%list in
    match names w !! p with
    | Some i =>
        match files w !! i with
        | Some f =>
            let '(r, f') := written f content in
            (r, World (names w) (<[i := f']> (files w)) (encodes w) l)
        | None =>
            (Ok tt, World (names w) (<[i := File (Ok content) WriteOk]> (files w))
                          (encodes w) l)
        end
    | None =>
        let i := fresh (dom (files w) ∪ (map_img (names w) : gset nat)) in
        (Ok tt, World (<[p := i]> (names w))
                      (<[i := File (Ok content) WriteOk]> (files w))
                      (encodes w) l)
    end.

(** [list(root.rglob(pattern))]: the names below [root], at any depth,
    that match; links are names like any other. *)
Definition rglob (root : path) (pattern : string) : M (list path) :=
  fun w => (Ok (List.filter (globbed root pattern) (elements (dom (names w)))), w).

End Env.

(* ===================================================================== *)
(** ** The script in the general environment *)
(* ===================================================================== *)

Module Script.
Import FS Env.

Definition ROOT_DIR : path := [].
Definition SRC_DIR : path := ROOT_DIR ++ ["src"].

(** The [try] block of [replace_in_file]. *)
Definition replace_in_file_try (file_path : path) (replacements : list Rules.rule)
  : Env.M bool :=
  content <~ Env.read_text file_path ;;
  let original_content := content in
  let content := Rules.apply_rules replacements content in
  if negb (String.eqb content original_content)
  then Env.write_text file_path content ~;; Env.ret true
  else Env.ret false.

Definition replace_in_file (file_path : path) (replacements : list Rules.rule)
  : Env.M bool :=
  Env.try_except
    (replace_in_file_try file_path replacements)
    (fun e => Env.print (LError file_path e) ~;; Env.ret false).

(** [for f in files: if replace_in_file(f, replacements): changed += 1; print(...)] *)
Fixpoint process (files : list path) (replacements : list Rules.rule)
    (changed : nat) : Env.M nat :=
  match files with
  | [] => Env.ret changed
  | f :: rest =>
      b <~ replace_in_file f replacements ;;
      if b : bool
      then Env.print (LOk f) ~;; process rest replacements (changed + 1)
      else process rest replacements changed
  end.

(** [for pattern in patterns: other_files.extend(root.rglob(pattern))] *)
Fixpoint extend_all (root : path) (patterns : list string)
    (other_files : list path) : Env.M (list path) :=
  match patterns with
  | [] => Env.ret other_files
  | pattern :: rest =>
      found <~ Env.rglob root pattern ;;
      extend_all root rest (other_files ++ found)
  end.

Definition main : Env.M unit :=
  let replacements := Rules.replacements in
  cs_files <~ Env.rglob SRC_DIR "*.cs" ;;
  Env.print (LProcessing CSharp (length cs_files)) ~;;
  cs_changed <~ process cs_files replacements 0 ;;
  xaml_files <~ Env.rglob SRC_DIR "*.xaml" ;;
  Env.print (LProcessing Xaml (length xaml_files)) ~;;
  xaml_changed <~ process xaml_files replacements 0 ;;
  other_files <~ extend_all ROOT_DIR ["*.json"; "*.config"; "*.xml"; "*.md"] [] ;;
  Env.print (LProcessing Other (length other_files)) ~;;
  other_changed <~ process other_files replacements 0 ;;
  Env.print (LRule true) ~;;
  Env.print LDone ~;;
  Env.print (LRule false) ~;;
  Env.print (LChanged CSharp cs_changed (length cs_files)) ~;;
  Env.print (LChanged Xaml xaml_changed (length xaml_files)) ~;;
  Env.print (LChanged Other other_changed (length other_files)) ~;;
  Env.print (LTotal (cs_changed + xaml_changed + other_changed)).

(** *** One call, as a function of the file its path leads to *)

(** The exception the try block raises on a file ([None]: none). *)
Definition failure (rules : list Rules.rule) (o : option file) : option exn :=
  match o with
  | None => Some (OSError "No such file or directory")
  | Some f =>
      match data f with
      | Raise e => Some e
      | Ok s =>
          let s' := Rules.apply_rules rules s in
          if negb (String.eqb s' s)
          then match fst (written f s') with
               | Raise e => Some e
               | Ok _ => None
               end
          else None
      end
  end.

(** The opens of a call. *)
Definition opens (rules : list Rules.rule) (p : path) (o : option file)
  : list event :=
  Opened p R ::
  match o with
  | Some (File (Ok s) _) =>
      if negb (String.eqb (Rules.apply_rules rules s) s) then [Opened p W] else []
  | _ => []
  end.

(** The files after a call on [p]. *)
Definition files_after (rules : list Rules.rule) (w : Env.world) (p : path)
  : gmap nat file :=
  match names w !! p with
  | Some i => alter (Renamer.rewritten rules) i (files w)
  | None => files w
  end.

(** The exceptions a file can raise: on reading and on writing. *)
Definition errors_of (o : option file) : list exn :=
  match o with
  | None => [OSError "No such file or directory"]
  | Some f =>
      match data f with Raise e => [e] | Ok _ => [] end
      ++ match on_write f with
         | WriteOk => []
         | OpenFails e => [e]
         | WriteFails e _ => [e]
         end
  end.

(** The console can print the lines a call on [p] may have to print. *)
Definition speaks (w : Env.world) (p : path) : Prop :=
  printable w (LOk p) = true
  /\ forall e, e ∈ errors_of (lookup_file w p) -> printable w (LError p e) = true.

(** The console can print the lines a run may have to print. *)
Definition speaks_all (w : Env.world) : Prop :=
  forall p, is_Some (names w !! p) -> Renamer.in_scope p = true -> speaks w p.

(** [p] is the only name of the file it leads to. *)
Definition sole_name (w : Env.world) (p : path) : Prop :=
  forall q, is_Some (names w !! p) -> names w !! q = names w !! p -> q = p.

(** The path an event is about. *)
Definition mentions (ev : event) : option path :=
  match ev with
  | Opened p _ => Some p
  | Printed (LOk p) => Some p
  | Printed (LError p _) => Some p
  | Printed _ => None
  end.

(** The events added from [w] to [w']. *)
Definition news (w w' : Env.world) : list event :=
  drop (length (Env.log w)) (Env.log w').

(** From [w] to [w'] only the paths in [S] were worked on: same names,
    same console, every file raises what it raised before, the log has
    grown by events about paths in [S], and a file to which no path in
    [S] leads is as it was. *)
Definition within (S : path -> Prop) (w w' : Env.world) : Prop :=
  names w' = names w
  /\ encodes w' = encodes w
  /\ (forall i, errors_of (files w' !! i) = errors_of (files w !! i))
  /\ Env.log w' = (Env.log w ++ news w w')%list
  /\ (forall ev q, ev ∈ news w w' -> mentions ev = Some q -> S q)
  /\ (forall i, (forall q, S q -> names w !! q <> Some i) ->
                files w' !! i = files w !! i).

(** *** The three file groups *)

Definition cs_files (w : Env.world) : list path :=
  List.filter (globbed SRC_DIR "*.cs") (elements (dom (names w))).

Definition xaml_files (w : Env.world) : list path :=
  List.filter (globbed SRC_DIR "*.xaml") (elements (dom (names w))).

Definition other_files (w : Env.world) : list path :=
  flat_map (fun pattern =>
              List.filter (globbed ROOT_DIR pattern) (elements (dom (names w))))
           Renamer.other_patterns.

(** The directory listing as a disk: every name with an empty file. *)
Definition listing (w : Env.world) : gmap path file :=
  (fun _ => File (Ok "") WriteOk) <$> names w.

(** The paths a run on [w] may work on: the names in scope. *)
Definition in_reach (w : Env.world) (q : path) : Prop :=
  Renamer.in_scope q = true /\ is_Some (names w !! q).

(** The sheltered view of a world: each path with the file it leads to. *)
Definition disk_of (w : Env.world) : gmap path file :=
  omap (fun i => files w !! i) (names w).

(** A world without links and without a name that leads nowhere, on a
    console that encodes every text. *)
Definition sheltered (w : Env.world) : Prop :=
  (forall p q i, names w !! p = Some i -> names w !! q = Some i -> p = q)
  /\ (forall p i, names w !! p = Some i -> is_Some (files w !! i))
  /\ (forall s, encodes w s = true).

(** The sheltered world a world without links is seen as. *)
Definition to_fs (w : Env.world) : FS.world :=
  FS.World (disk_of w) (Env.log w).

(** On sheltered worlds [m] does what [m0] does on their sheltered view. *)
Definition simulates {A} (m : Env.M A) (m0 : FS.M A) : Prop :=
  forall w, sheltered w ->
    m0 (to_fs w) = (fst (m w), to_fs (snd (m w))) /\ sheltered (snd (m w)).

End Script.

(* ===================================================================== *)
(** ** A small project with a link and a plain console *)
(* ===================================================================== *)

Module Linked.
Import FS.

(** A console that encodes ASCII only. *)
Definition ascii_only (s : string) : bool :=
  forallb (fun c => Nat.ltb (nat_of_ascii c) 128) (list_ascii_of_string s).

(** A console that encodes every text. *)
Definition utf8 (s : string) : bool := true.

(** A name with a letter outside ASCII. *)
Definition cafe_cs : string := "caf" ++ String (ascii_of_nat 233) ".cs".

(** [readme.md] is a link to [notes.txt]. *)
Definition linked : Env.world :=
  Env.World
    (<[ ["readme.md"] := 1 ]> (<[ ["notes.txt"] := 1 ]> ∅))
    (<[ 1 := File (Ok "// Nebula") WriteOk ]> ∅)
    utf8 [].

(** One source file that is not UTF-8 and whose name is not ASCII, on an
    ASCII console. *)
Definition unspeakable : Env.world :=
  Env.World
    (<[ ["src"; cafe_cs] := 1 ]> ∅)
    (<[ 1 := File (Raise Scenario.undecodable) WriteOk ]> ∅)
    ascii_only [].

(** Two source files with the same text, the second read-only. *)
Definition twins : Env.world :=
  Env.World
    (<[ ["src"; "A.cs"] := 1 ]> (<[ ["src"; "B.cs"] := 2 ]> ∅))
    (<[ 1 := File (Ok "using Nebula;") WriteOk ]>
     (<[ 2 := File (Ok "using Nebula;") (OpenFails Scenario.denied) ]> ∅))
    utf8 [].

(** The project of [Scenario.disk0], every path a file of its own. *)
Definition plain : Env.world :=
  Env.World
    (<[ Scenario.first := 1 ]> (<[ Scenario.second := 2 ]>
     (<[ Scenario.third := 3 ]> (<[ Scenario.readme := 4 ]>
     (<[ Scenario.notes := 5 ]> ∅)))))
    (<[ 1 := File (Ok "namespace Nebula.Core { }") WriteOk ]>
     (<[ 2 := File (Raise Scenario.undecodable) WriteOk ]>
     (<[ 3 := File (Ok "class Core { }") WriteOk ]>
     (<[ 4 := File (Ok "// Nebula") WriteOk ]>
     (<[ 5 := File (Ok "// Nebula") WriteOk ]> ∅)))))
    utf8 [].

(** One source file with the text of [twins], under an ASCII console. *)
Definition single : Env.world :=
  Env.World
    (<[ ["src"; "Z.cs"] := 9 ]> ∅)
    (<[ 9 := File (Ok "using Nebula;") WriteOk ]> ∅)
    ascii_only [].

(** A C# file outside the source directory. *)
Definition stray : Env.world :=
  Env.World
    (<[ ["tools"; "Gen.cs"] := 1 ]> ∅)
    (<[ 1 := File (Ok "using Nebula;") WriteOk ]> ∅)
    utf8 [].

End Linked.

Import FS Renamer.

(** Membership in a list that is written out. *)
Ltac pattern_in_list :=
  repeat first [ apply list_elem_of_here | apply list_elem_of_further ].

Ltac pattern_in_six :=
  unfold six_patterns, other_patterns; cbn [app]; pattern_in_list.

(* ===================================================================== *)
(** ** Facts about [str.replace] *)
(* ===================================================================== *)

Section Replace.

Import PyStr.

Lemma append_cons (a : ascii) (s t : string) :
  String a s ++ t = String a (s ++ t).
Proof. reflexivity. Qed.

Lemma append_nil (t : string) : "" ++ t = t.
Proof. reflexivity. Qed.

Lemma startswith_split (p s : string) :
  startswith p s = true -> s = p ++ skipn (String.length p) s.
Proof.
  revert s. induction p as [|a p IH]; intros [|b s]; simpl; try done.
  destruct (Ascii.eqb_spec a b) as [->|]; [|done].
  intros H. rewrite append_cons. f_equal. by apply IH.
Qed.

Lemma count_app (c : ascii) (a b : string) :
  count c (a ++ b) = count c a + count c b.
Proof.
  induction a as [|x a IH]; [done|].
  rewrite append_cons. simpl. rewrite IH. lia.
Qed.

(** Stepping over [k] pending characters is dropping them. *)
Lemma replace_scan_pending (old new : string) (k : nat) (s : string) :
  replace_scan old new k s = replace_scan old new 0 (skipn k s).
Proof.
  revert k. induction s as [|c s IH]; intros [|k]; simpl; done.
Qed.

(** The scan, one match at a time: a match at the front is replaced and
    the scan goes on behind it; otherwise one character is copied. *)
Lemma replace_scan_unfold (old new s : string) :
  old <> "" ->
  replace_scan old new 0 s =
    if startswith old s
    then new ++ replace_scan old new 0 (skipn (String.length old) s)
    else match s with
         | EmptyString => EmptyString
         | String c s' => String c (replace_scan old new 0 s')
         end.
Proof.
  intros Hne. destruct s as [|c s].
  - destruct old; [done|]. reflexivity.
  - cbn [replace_scan]. destruct (startswith old (String c s)); [|done].
    rewrite replace_scan_pending. destruct old as [|a old]; [done|].
    simpl. by rewrite Nat.sub_0_r.
Qed.

Lemma replace_scan_absent (old new s : string) :
  occurs old s = false -> replace_scan old new 0 s = s.
Proof.
  induction s as [|c s IH]; [done|].
  cbn [occurs replace_scan]. intros [H1 H2]%orb_false_elim.
  rewrite H1. f_equal. by apply IH.
Qed.

(** Matches are taken left to right and do not overlap; an empty [old]
    matches in front of every character and at the end. *)
Example replace_leftmost : replace "aa" "b" "aaaaa" = "bba".
Proof. reflexivity. Qed.

Example replace_empty_old : replace "" "-" "abc" = "-a-b-c-".
Proof. reflexivity. Qed.

Example replace_shared_delimiter :
  replace "/Nebula/" "/TermSnap/" "/Nebula/Nebula/" = "/TermSnap/Nebula/".
Proof. reflexivity. Qed.

(** A literal that does not occur leaves the text as it is. *)
Lemma replace_absent (old new s : string) :
  occurs old s = false -> replace old new s = s.
Proof.
  intros H. destruct old as [|a old].
  - by destruct s.
  - by apply replace_scan_absent.
Qed.

Lemma count_skipn_le (c : ascii) (k : nat) (s : string) :
  count c (skipn k s) <= count c s.
Proof.
  revert k. induction s as [|a s IH]; intros [|k]; simpl; try lia.
  specialize (IH k). lia.
Qed.

Lemma count_replace_scan_le (c : ascii) (old new : string) (k : nat) (s : string) :
  count c new = 0 -> count c (replace_scan old new k s) <= count c s.
Proof.
  intros Hnew. revert k. induction s as [|a s IH]; intros k; [done|].
  cbn [replace_scan]. destruct k as [|k].
  - destruct (startswith old (String a s)).
    + rewrite count_app, Hnew. simpl.
      specialize (IH (String.length old - 1)). lia.
    + simpl. specialize (IH 0). lia.
  - simpl. specialize (IH k). lia.
Qed.

Lemma count_intersperse (c : ascii) (new s : string) :
  count c new = 0 -> count c (intersperse new s) = count c s.
Proof.
  intros Hnew. induction s as [|a s IH]; simpl; [done|].
  rewrite count_app, Hnew. simpl. by rewrite IH.
Qed.

(** Replacing by a text without [c] never adds a [c]. *)
Lemma count_replace_le (c : ascii) (old new s : string) :
  count c new = 0 -> count c (replace old new s) <= count c s.
Proof.
  intros Hnew. destruct old as [|a old].
  - simpl. by rewrite count_intersperse.
  - by apply count_replace_scan_le.
Qed.

(** Replacing a literal that has a [c] by a text that has none removes
    a [c] as soon as the literal occurs. *)
Lemma count_replace_lt (c : ascii) (old new s : string) :
  count c new = 0 -> 0 < count c old -> occurs old s = true ->
  count c (replace old new s) < count c s.
Proof.
  intros Hnew Hold Hocc.
  assert (Hne : old <> "") by (intros ->; simpl in Hold; lia).
  replace (replace old new s) with (replace_scan old new 0 s)
    by (by destruct old).
  induction s as [|a s IH].
  - simpl in Hocc. rewrite orb_false_r in Hocc. by destruct old.
  - rewrite replace_scan_unfold by done.
    destruct (startswith old (String a s)) eqn:Hsw.
    + apply startswith_split in Hsw.
      rewrite count_app, Hnew.
      pose proof (count_replace_scan_le c old new 0
                    (skipn (String.length old) (String a s)) Hnew) as Hle.
      rewrite Hsw at 2. rewrite count_app. simpl in *. lia.
    + cbn [occurs] in Hocc. rewrite Hsw in Hocc. simpl in Hocc |- *.
      specialize (IH Hocc). lia.
Qed.

End Replace.

Section RuleList.

Import PyStr Rules.

Lemma apply_rules_absent (rules : list rule) (s : string) :
  any_literal rules s = false -> apply_rules rules s = s.
Proof.
  unfold apply_rules, any_literal. induction rules as [|r rules IH]; [done|].
  simpl. intros [H1 H2]%orb_false_elim.
  unfold apply_rule at 2. rewrite replace_absent by done. by apply IH.
Qed.

Lemma count_apply_rules_le (c : ascii) (rules : list rule) (s : string) :
  sheds c rules -> count c (apply_rules rules s) <= count c s.
Proof.
  unfold apply_rules. intros H. revert s.
  induction H as [|r rules [Hnew _] _ IH]; intros s; simpl; [done|].
  etrans; [apply IH|]. by apply count_replace_le.
Qed.

(** When a literal of the list occurs, the loop changes the text. *)
Lemma apply_rules_present (c : ascii) (rules : list rule) (s : string) :
  sheds c rules -> any_literal rules s = true -> apply_rules rules s <> s.
Proof.
  unfold any_literal. intros H. revert s.
  induction H as [|r rules [Hnew Hold] Hrest IH]; intros s; simpl; [done|].
  destruct (occurs (fst r) s) eqn:Hocc; simpl.
  - intros _ Heq.
    pose proof (count_apply_rules_le c rules (apply_rule s r) Hrest) as Hle.
    pose proof (count_replace_lt c _ _ s Hnew Hold Hocc) as Hlt.
    rewrite Heq in Hle. unfold apply_rule in Hle. lia.
  - unfold apply_rule. rewrite replace_absent by done. apply IH.
Qed.

(** The text is a fixed point of the loop exactly when no literal of the
    list occurs in it. *)
Lemma apply_rules_fixed (c : ascii) (rules : list rule) (s : string) :
  sheds c rules ->
  apply_rules rules s = s <-> any_literal rules s = false.
Proof.
  intros H. split.
  - intros Heq. destruct (any_literal rules s) eqn:Hany; [|done].
    by destruct (apply_rules_present c rules s H Hany).
  - apply apply_rules_absent.
Qed.

(** Every shipped literal has one capital N and no shipped replacement
    has any. *)
Lemma replacements_shed : sheds "N" replacements.
Proof. repeat constructor. Qed.

End RuleList.

(* ===================================================================== *)
(** ** One call of [replace_in_file] *)
(* ===================================================================== *)

Section OneCall.

Variable rules : list Rules.rule.

Lemma alter_present (g : file -> file) (p : path) (d : gmap path file) (f : file) :
  d !! p = Some f -> <[p := g f]> d = alter g p d.
Proof.
  intros H. apply map_eq. intros q. rewrite lookup_alter, lookup_insert.
  case_decide; subst; by rewrite ?H.
Qed.

Lemma alter_same (g : file -> file) (p : path) (d : gmap path file) :
  (forall f, d !! p = Some f -> g f = f) -> alter g p d = d.
Proof.
  intros H. apply map_eq. intros q. rewrite lookup_alter.
  case_decide; subst; [|done].
  destruct (d !! q) as [f|] eqn:E; simpl; [|done]. by rewrite H.
Qed.

(** What a call does, in one equation. *)
Lemma replace_in_file_run (p : path) (w : world) :
  replace_in_file p rules w =
    (Ok (verdict rules (disk w !! p)),
     World (alter (rewritten rules) p (disk w))
           (log w ++ call_events rules p (disk w !! p))).
Proof.
  destruct w as [d l].
  unfold replace_in_file, try_except, replace_in_file_try, bind, read_text,
    write_text, print, ret, record, verdict, call_events. simpl.
  destruct (d !! p) as [[dat ow]|] eqn:E; simpl.
  - destruct dat as [s|e]; simpl.
    + destruct (String.eqb (Rules.apply_rules rules s) s) eqn:Eq; simpl.
      * rewrite alter_same; [by destruct ow|].
        intros f Hf. rewrite E in Hf. injection Hf as <-.
        unfold rewritten. simpl. by rewrite Eq.
      * rewrite E. simpl.
        erewrite <- (alter_present (rewritten rules)) by exact E.
        unfold rewritten, written. simpl. rewrite Eq. simpl.
        destruct ow; simpl; by rewrite <- ?app_assoc.
    + rewrite alter_same; [by rewrite <- app_assoc|].
      intros f Hf. rewrite E in Hf. by injection Hf as <-.
  - rewrite alter_same; [by rewrite <- app_assoc|].
    intros f Hf. by rewrite E in Hf.
Qed.

End OneCall.

(* ===================================================================== *)
(** ** One pass over a list of files *)
(* ===================================================================== *)

Section OnePass.

Variable rules : list Rules.rule.

Lemma processed_lookup_out (files : list path) (d : gmap path file) (q : path) :
  q ∉ files -> processed rules files d !! q = d !! q.
Proof.
  unfold processed. revert d.
  induction files as [|f files IH]; intros d Hq; [done|].
  apply not_elem_of_cons in Hq as [Hne Hq]. simpl.
  rewrite IH by done. by rewrite lookup_alter_ne.
Qed.

Lemma processed_lookup_in (files : list path) (d : gmap path file) (q : path) :
  NoDup files -> q ∈ files ->
  processed rules files d !! q = rewritten rules <$> d !! q.
Proof.
  unfold processed. revert d.
  induction files as [|f files IH]; intros d Hnd Hq; [by apply elem_of_nil in Hq|].
  apply NoDup_cons in Hnd as [Hf Hnd]. simpl.
  apply elem_of_cons in Hq as [->|Hq].
  - fold (processed rules files (alter (rewritten rules) f d)).
    rewrite processed_lookup_out by done. by rewrite lookup_alter_eq.
  - rewrite IH by done. rewrite lookup_alter_ne; [done|].
    intros ->. done.
Qed.

Lemma processed_dom (files : list path) (d : gmap path file) :
  dom (processed rules files d) = dom d.
Proof.
  unfold processed. revert d.
  induction files as [|f files IH]; intros d; [done|].
  simpl. rewrite IH. apply dom_alter_L.
Qed.

Lemma changed_count_agree (files : list path) (d1 d2 : gmap path file) :
  (forall q, q ∈ files -> d1 !! q = d2 !! q) ->
  changed_count rules d1 files = changed_count rules d2 files.
Proof.
  unfold changed_count. intros H. f_equal.
  apply List.filter_ext_in. intros q Hq%list_elem_of_In. by rewrite H.
Qed.

Lemma turn_events_agree (files : list path) (d1 d2 : gmap path file) :
  (forall q, q ∈ files -> d1 !! q = d2 !! q) ->
  flat_map (turn_events rules d1) files = flat_map (turn_events rules d2) files.
Proof.
  intros H. induction files as [|f files IH]; [done|].
  simpl. rewrite IH.
  - unfold turn_events. rewrite H; [done|]. apply elem_of_cons. by left.
  - intros q Hq. apply H. apply elem_of_cons. by right.
Qed.

(** What a pass over distinct files does, in one equation: each call
    sees its file as it was before the pass. *)
Lemma process_run (files : list path) (n : nat) (w : world) :
  NoDup files ->
  process files rules n w =
    (Ok (n + changed_count rules (disk w) files),
     World (processed rules files (disk w))
           (log w ++ flat_map (turn_events rules (disk w)) files)).
Proof.
  revert n w. induction files as [|f files IH]; intros n w Hnd.
  - destruct w. unfold changed_count. simpl. unfold ret. simpl.
    by rewrite Nat.add_0_r, app_nil_r.
  - apply NoDup_cons in Hnd as [Hf Hnd].
    assert (Hagree : forall q, q ∈ files ->
              alter (rewritten rules) f (disk w) !! q = disk w !! q).
    { intros q Hq. apply lookup_alter_ne. intros ->. done. }
    cbn [process]. unfold bind at 1. rewrite replace_in_file_run.
    unfold changed_count. cbn [List.filter flat_map processed fold_left].
    fold (processed rules files (alter (rewritten rules) f (disk w))).
    fold (changed_count rules (disk w) files).
    unfold turn_events at 1.
    destruct (verdict rules (disk w !! f)) eqn:Ev.
    + unfold bind, print, record. cbn [disk log].
      rewrite IH by done. cbn [disk log].
      rewrite (changed_count_agree files _ (disk w)) by done.
      rewrite (turn_events_agree files _ (disk w)) by done.
      f_equal; [f_equal; unfold changed_count; simpl; lia|].
      f_equal. by rewrite <- !app_assoc.
    + rewrite IH by done. cbn [disk log].
      rewrite (changed_count_agree files _ (disk w)) by done.
      rewrite (turn_events_agree files _ (disk w)) by done.
      f_equal. f_equal. by rewrite app_nil_r, <- !app_assoc.
Qed.

Lemma call_events_open (p q : path) (m : mode) (o : option file) :
  Opened q m ∈ call_events rules p o -> q = p.
Proof.
  unfold call_events. intros [H|H]%elem_of_cons; [by injection H|].
  destruct o as [f|].
  - destruct (data f) as [s|e].
    + destruct (negb _).
      * apply elem_of_cons in H as [H|H]; [by injection H|].
        destruct (written f _).1; [by apply elem_of_nil in H|].
        apply elem_of_cons in H as [H|H]; [done|by apply elem_of_nil in H].
      * by apply elem_of_nil in H.
    + apply elem_of_cons in H as [H|H]; [done|by apply elem_of_nil in H].
  - apply elem_of_cons in H as [H|H]; [done|by apply elem_of_nil in H].
Qed.

Lemma call_events_no_ok (p q : path) (o : option file) :
  Printed (LOk q) ∉ call_events rules p o.
Proof.
  unfold call_events. intros [H|H]%elem_of_cons; [done|].
  destruct o as [f|].
  - destruct (data f) as [s|e].
    + destruct (negb _).
      * apply elem_of_cons in H as [H|H]; [done|].
        destruct (written f _).1; [by apply elem_of_nil in H|].
        apply elem_of_cons in H as [H|H]; [done|by apply elem_of_nil in H].
      * by apply elem_of_nil in H.
    + apply elem_of_cons in H as [H|H]; [done|by apply elem_of_nil in H].
  - apply elem_of_cons in H as [H|H]; [done|by apply elem_of_nil in H].
Qed.

(** A pass opens the files it is given and no other. *)
Lemma pass_opens (files : list path) (d : gmap path file) (q : path) (m : mode) :
  Opened q m ∈ flat_map (turn_events rules d) files -> q ∈ files.
Proof.
  induction files as [|f files IH]; cbn [flat_map]; [by intros ?%elem_of_nil|].
  intros [H|H]%elem_of_app.
  - unfold turn_events in H. apply elem_of_app in H as [H|H].
    + apply call_events_open in H as ->. by left.
    + destruct (verdict _ _); [|by apply elem_of_nil in H].
      apply elem_of_cons in H as [H|H]; [done|by apply elem_of_nil in H].
  - right. by apply IH.
Qed.

(** A pass reads every file it is given. *)
Lemma pass_reads (files : list path) (d : gmap path file) (q : path) :
  q ∈ files -> Opened q R ∈ flat_map (turn_events rules d) files.
Proof.
  induction files as [|f files IH]; [by intros ?%elem_of_nil|].
  cbn [flat_map]. intros [->|H]%elem_of_cons; apply elem_of_app.
  - left. unfold turn_events, call_events. apply elem_of_app. left. by left.
  - right. by apply IH.
Qed.

(** A pass prints the [OK] line of exactly the files whose call returns
    [True]. *)
Lemma pass_ok_lines (files : list path) (d : gmap path file) (q : path) :
  Printed (LOk q) ∈ flat_map (turn_events rules d) files <->
  q ∈ files /\ verdict rules (d !! q) = true.
Proof.
  induction files as [|f files IH]; cbn [flat_map].
  - rewrite !elem_of_nil. tauto.
  - rewrite elem_of_app, IH, elem_of_cons. unfold turn_events.
    rewrite elem_of_app. split.
    + intros [[H|H]|[H1 H2]]; [by apply call_events_no_ok in H| |tauto].
      destruct (verdict rules (d !! f)) eqn:Ev; [|by apply elem_of_nil in H].
      apply elem_of_cons in H as [H|H]; [|by apply elem_of_nil in H].
      injection H as ->. tauto.
    + intros [[->|H1] H2]; [|tauto].
      left. right. rewrite H2. by left.
Qed.

Lemma processed_lookup (files : list path) (d : gmap path file) (q : path) :
  NoDup files ->
  processed rules files d !! q =
    if decide (q ∈ files) then rewritten rules <$> d !! q else d !! q.
Proof.
  intros Hnd. case_decide.
  - by apply processed_lookup_in.
  - by apply processed_lookup_out.
Qed.

End OnePass.

(* ===================================================================== *)
(** ** Discovery *)
(* ===================================================================== *)

Section Discovery.

Lemma fnmatch_literal (pat name : string) :
  literal pat = true -> fnmatch pat name = String.eqb pat name.
Proof.
  revert name. induction pat as [|c pat IH]; intros name Hlit.
  - by destruct name.
  - simpl in Hlit. apply andb_prop in Hlit as [[H1 H2]%andb_prop H3].
    apply negb_true_iff in H1, H2. simpl. rewrite H1.
    destruct name as [|d name]; [done|]. rewrite H2. simpl.
    rewrite IH by done. done.
Qed.

(** A star in front of a literal asks for that ending. *)
Lemma fnmatch_star (suffix name : string) :
  literal suffix = true ->
  fnmatch (String "*" suffix) name = endswith suffix name.
Proof.
  intros Hlit. induction name as [|d name IH].
  - simpl. rewrite fnmatch_literal by done. by rewrite orb_false_r.
  - simpl in *. rewrite IH.
    by rewrite (fnmatch_literal suffix (String d name) Hlit).
Qed.

Lemma endswith_both (a b name : string) :
  endswith a name = true -> endswith b name = true ->
  endswith a b = true \/ endswith b a = true.
Proof.
  induction name as [|d name IH]; cbn [endswith]; rewrite ?orb_false_r.
  - intros Ha%String.eqb_eq Hb%String.eqb_eq. subst. by left.
  - intros [Ha|Ha]%orb_prop [Hb|Hb]%orb_prop.
    + apply String.eqb_eq in Ha, Hb. subst. left.
      cbn [endswith]. by rewrite String.eqb_refl.
    + apply String.eqb_eq in Ha. subst. right.
      cbn [endswith]. by rewrite Hb, orb_true_r.
    + apply String.eqb_eq in Hb. subst. left.
      cbn [endswith]. by rewrite Ha, orb_true_r.
    + by apply IH.
Qed.

(** Two endings neither of which ends the other never match one name. *)
Lemma fnmatch_exclusive (s1 s2 name : string) :
  literal s1 = true -> literal s2 = true ->
  endswith s1 s2 = false -> endswith s2 s1 = false ->
  fnmatch (String "*" s1) name = true -> fnmatch (String "*" s2) name = true ->
  False.
Proof.
  intros L1 L2 E1 E2. rewrite !fnmatch_star by done. intros H1 H2.
  destruct (endswith_both _ _ _ H1 H2); congruence.
Qed.

Lemma relative_to_last (root p rest : path) :
  relative_to root p = Some rest -> rest <> [] -> last rest = last p.
Proof.
  revert p. induction root as [|r root IH]; intros [|c p]; simpl; try done.
  - by intros [= <-].
  - by intros [= <-].
  - destruct (String.eqb r c); [|done]. intros H Hne.
    rewrite (IH _ H Hne). destruct p; [|done].
    destruct root; simpl in H; [|done]. by injection H as <-.
Qed.

(** A globbed path has a name, and the name matches. *)
Lemma globbed_name (root : path) (pattern : string) (p : path) :
  globbed root pattern p = true ->
  exists name, last p = Some name /\ fnmatch pattern name = true.
Proof.
  unfold globbed. destruct (relative_to root p) as [rest|] eqn:E; [|done].
  destruct (last rest) as [name|] eqn:El; [|done].
  intros H. exists name. split; [|done].
  rewrite <- El. symmetry. eapply relative_to_last; [done|].
  intros ->. done.
Qed.

(** No name matches two of the six patterns. *)
Lemma six_exclusive (pat1 pat2 name : string) :
  pat1 ∈ six_patterns -> pat2 ∈ six_patterns -> pat1 <> pat2 ->
  fnmatch pat1 name = true -> fnmatch pat2 name = true -> False.
Proof.
  unfold six_patterns, other_patterns. cbn [app]. intros H1 H2 Hne.
  repeat (apply elem_of_cons in H1 as [->|H1]);
    try (by apply elem_of_nil in H1);
    repeat (apply elem_of_cons in H2 as [->|H2]);
    try (by apply elem_of_nil in H2);
    try done;
    by apply fnmatch_exclusive.
Qed.

Lemma globbed_exclusive (root1 root2 : path) (pat1 pat2 : string) (p : path) :
  pat1 ∈ six_patterns -> pat2 ∈ six_patterns -> pat1 <> pat2 ->
  globbed root1 pat1 p = true -> globbed root2 pat2 p = true -> False.
Proof.
  intros H1 H2 Hne [n1 [Hn1 Hm1]]%globbed_name [n2 [Hn2 Hm2]]%globbed_name.
  rewrite Hn1 in Hn2. injection Hn2 as <-.
  by eapply (six_exclusive pat1 pat2 n1).
Qed.

End Discovery.

(* ===================================================================== *)
(** ** The whole run *)
(* ===================================================================== *)

Section Run.

Lemma globbed_files_NoDup (root : path) (pattern : string) (d : gmap path file) :
  NoDup (List.filter (globbed root pattern) (elements (dom d))).
Proof. apply NoDup_ListNoDup, List.NoDup_filter, NoDup_ListNoDup, NoDup_elements. Qed.

Lemma elem_of_globbed_files (root : path) (pattern : string) (d : gmap path file)
    (p : path) :
  p ∈ List.filter (globbed root pattern) (elements (dom d)) <->
  globbed root pattern p = true /\ is_Some (d !! p).
Proof.
  rewrite list_elem_of_In, List.filter_In, <- list_elem_of_In.
  rewrite elem_of_elements, elem_of_dom. tauto.
Qed.

Lemma elem_of_cs_files (d : gmap path file) (p : path) :
  p ∈ cs_files d <-> globbed SRC_DIR "*.cs" p = true /\ is_Some (d !! p).
Proof. apply elem_of_globbed_files. Qed.

Lemma elem_of_xaml_files (d : gmap path file) (p : path) :
  p ∈ xaml_files d <-> globbed SRC_DIR "*.xaml" p = true /\ is_Some (d !! p).
Proof. apply elem_of_globbed_files. Qed.

Lemma elem_of_other_files (d : gmap path file) (p : path) :
  p ∈ other_files d <->
  existsb (fun pattern => globbed ROOT_DIR pattern p) other_patterns = true
  /\ is_Some (d !! p).
Proof.
  unfold other_files, other_patterns. cbn [flat_map existsb].
  rewrite !elem_of_app, !elem_of_globbed_files, elem_of_nil.
  rewrite !orb_true_iff. intuition congruence.
Qed.

Lemma cs_files_NoDup (d : gmap path file) : NoDup (cs_files d).
Proof. apply globbed_files_NoDup. Qed.

Lemma xaml_files_NoDup (d : gmap path file) : NoDup (xaml_files d).
Proof. apply globbed_files_NoDup. Qed.

Lemma other_files_NoDup (d : gmap path file) : NoDup (other_files d).
Proof.
  unfold other_files, other_patterns. cbn [flat_map].
  repeat (apply NoDup_app; split; [apply globbed_files_NoDup|split]);
    [..|apply NoDup_nil_2];
    intros p [H1 _]%elem_of_globbed_files;
    rewrite ?elem_of_app, ?elem_of_globbed_files, ?elem_of_nil;
    intros H; decompose [and or] H; try done;
    match goal with
    | H2 : globbed _ _ p = true |- _ =>
        eapply (globbed_exclusive _ _ _ _ p _ _ _ H1 H2)
    end.
  Unshelve. all: first [ discriminate | pattern_in_six ].
Qed.

Lemma xaml_not_cs (d d' : gmap path file) (p : path) :
  p ∈ xaml_files d -> p ∉ cs_files d'.
Proof.
  intros [H1 _]%elem_of_xaml_files [H2 _]%elem_of_cs_files.
  eapply (globbed_exclusive _ _ "*.xaml" "*.cs" p); try done; pattern_in_six.
Qed.

Lemma other_not_src (d d' : gmap path file) (p : path) :
  p ∈ other_files d -> (p ∉ cs_files d') /\ (p ∉ xaml_files d').
Proof.
  intros [H1 _]%elem_of_other_files.
  unfold other_patterns in H1. cbn [existsb] in H1.
  rewrite !orb_true_iff in H1.
  split.
  - intros [H2 _]%elem_of_cs_files. decompose [or] H1; try done;
      match goal with
      | H : globbed _ ?pat p = true |- _ =>
          eapply (globbed_exclusive _ _ pat "*.cs" p); try done; pattern_in_six
      end.
  - intros [H2 _]%elem_of_xaml_files. decompose [or] H1; try done;
      match goal with
      | H : globbed _ ?pat p = true |- _ =>
          eapply (globbed_exclusive _ _ pat "*.xaml" p); try done; pattern_in_six
      end.
Qed.

Lemma extend_all_run (root : path) (patterns : list string) (acc : list path)
    (w : world) :
  extend_all root patterns acc w =
    (Ok (acc ++ flat_map (fun pattern =>
                   List.filter (globbed root pattern) (elements (dom (disk w))))
                 patterns)%list, w).
Proof.
  revert acc. induction patterns as [|pat patterns IH]; intros acc.
  - simpl. by rewrite app_nil_r.
  - cbn [extend_all flat_map]. unfold bind, rglob. rewrite IH.
    by rewrite <- app_assoc.
Qed.

(** What a run does, in one equation on the disk it starts from. *)
Lemma main_run (w : world) :
  main w = (Ok tt, World (run_disk (disk w)) (log w ++ run_events (disk w))).
Proof.
  destruct w as [d l]. unfold main.
  unfold bind at 1. unfold rglob at 1. cbn [disk log].
  fold (cs_files d).
  unfold bind at 1. unfold print at 1, record. cbn [disk log].
  unfold bind at 1. rewrite process_run by apply cs_files_NoDup. cbn [disk log].
  set (d1 := processed Rules.replacements (cs_files d) d).
  unfold bind at 1. unfold rglob at 1. cbn [disk log].
  fold (xaml_files d1).
  assert (Hx : xaml_files d1 = xaml_files d).
  { unfold xaml_files, d1. by rewrite processed_dom. }
  rewrite Hx.
  unfold bind at 1. unfold print at 1, record. cbn [disk log].
  unfold bind at 1. rewrite process_run by apply xaml_files_NoDup. cbn [disk log].
  set (d2 := processed Rules.replacements (xaml_files d) d1).
  unfold bind at 1. rewrite extend_all_run. cbn [disk log app].
  fold other_patterns. fold (other_files d2).
  assert (Ho : other_files d2 = other_files d).
  { unfold other_files, d2, d1. by rewrite !processed_dom. }
  rewrite Ho.
  unfold bind at 1. unfold print at 1, record. cbn [disk log].
  unfold bind at 1. rewrite process_run by apply other_files_NoDup. cbn [disk log].
  unfold bind, print, record. cbn [disk log].
  assert (H1 : forall q, q ∈ xaml_files d -> d1 !! q = d !! q).
  { intros q Hq. apply processed_lookup_out. by eapply xaml_not_cs. }
  assert (H2 : forall q, q ∈ other_files d -> d2 !! q = d !! q).
  { intros q Hq. destruct (other_not_src d d q Hq) as [Hc Hxa].
    unfold d2. rewrite processed_lookup_out by done.
    by apply processed_lookup_out. }
  rewrite (changed_count_agree _ (xaml_files d) d1 d H1).
  rewrite (changed_count_agree _ (other_files d) d2 d H2).
  rewrite (turn_events_agree _ (xaml_files d) d1 d H1).
  rewrite (turn_events_agree _ (other_files d) d2 d H2).
  f_equal. unfold run_disk, run_events, pass_events, run_summary, summary.
  fold d1. fold d2. f_equal.
  repeat first [rewrite <- app_assoc | progress cbn [app]]. reflexivity.
Qed.

(** The files of the three passes are the entries in scope. *)
Lemma in_scope_files (d : gmap path file) (p : path) :
  in_scope p = true /\ is_Some (d !! p) <->
  p ∈ cs_files d \/ p ∈ xaml_files d \/ p ∈ other_files d.
Proof.
  rewrite elem_of_cs_files, elem_of_xaml_files, elem_of_other_files.
  unfold in_scope. rewrite !orb_true_iff. tauto.
Qed.

Lemma run_events_open (d : gmap path file) (q : path) (m : mode) :
  Opened q m ∈ run_events d ->
  q ∈ cs_files d \/ q ∈ xaml_files d \/ q ∈ other_files d.
Proof.
  unfold run_events, pass_events, run_summary, summary. rewrite !elem_of_app, !elem_of_cons, !elem_of_nil.
  intros H. decompose [or] H; try done;
    match goal with H' : _ ∈ flat_map _ _ |- _ => apply pass_opens in H' end;
    tauto.
Qed.

(** A run opens only entries in scope. *)
Lemma run_opens (d : gmap path file) (q : path) (m : mode) :
  Opened q m ∈ run_events d -> in_scope q = true /\ is_Some (d !! q).
Proof. intros H. by apply in_scope_files, run_events_open with m. Qed.

(** A run reads every entry in scope. *)
Lemma run_reads (d : gmap path file) (q : path) :
  in_scope q = true -> is_Some (d !! q) -> Opened q R ∈ run_events d.
Proof.
  intros Hs Hq. assert (H := conj Hs Hq). apply in_scope_files in H.
  unfold run_events, pass_events. rewrite !elem_of_app.
  destruct H as [H|[H|H]]; apply (pass_reads Rules.replacements _ d) in H; tauto.
Qed.

(** The [OK] lines of a run are those of the entries in scope whose call
    returns [True]. *)
Lemma run_ok_lines (d : gmap path file) (q : path) :
  Printed (LOk q) ∈ run_events d <->
  in_scope q = true /\ verdict Rules.replacements (d !! q) = true.
Proof.
  unfold run_events, pass_events, run_summary, summary.
  rewrite !elem_of_app, !elem_of_cons, !elem_of_nil, !pass_ok_lines.
  split.
  - intros H. decompose [or and] H; try done; split; try done;
      eapply in_scope_files; eauto.
  - intros [Hs Hv].
    assert (Hq : is_Some (d !! q)).
    { destruct (d !! q); [by eexists|done]. }
    assert (H := conj Hs Hq). apply in_scope_files in H. tauto.
Qed.

(** Each entry after a run: rewritten by its one call when it is in
    scope, as it was otherwise. *)
Lemma run_disk_lookup (d : gmap path file) (p : path) :
  run_disk d !! p =
    if in_scope p then rewritten Rules.replacements <$> d !! p else d !! p.
Proof.
  unfold run_disk.
  rewrite !processed_lookup
    by first [apply cs_files_NoDup|apply xaml_files_NoDup|apply other_files_NoDup].
  destruct (in_scope p) eqn:Hs.
  - destruct (d !! p) as [f|] eqn:Hp.
    + assert (H : in_scope p = true /\ is_Some (d !! p)) by (rewrite Hp; eauto).
      apply in_scope_files in H.
      repeat case_decide; try done; try tauto.
      * by destruct (other_not_src d d p).
      * by destruct (other_not_src d d p).
      * by destruct (other_not_src d d p).
      * by destruct (xaml_not_cs d d p).
    + by repeat case_decide.
  - assert (H : ~ (in_scope p = true /\ is_Some (d !! p))) by (rewrite Hs; intros [? _]; done).
    rewrite in_scope_files in H.
    repeat case_decide; try done; tauto.
Qed.

End Run.

(* ===================================================================== *)
(** ** The rule list at work *)
(* ===================================================================== *)

Section ShippedRules.

Import PyStr Rules.

(** With the two rules of the specification's example, the order decides:
    the long literal first gives the one word, the short one first leaves
    the second word behind. *)
Example two_rules_in_both_orders :
  apply_rules [("Nebula Terminal", "TermSnap"); ("Nebula", "TermSnap")]
              "Nebula Terminal" = "TermSnap"
  /\ apply_rules [("Nebula", "TermSnap"); ("Nebula Terminal", "TermSnap")]
                 "Nebula Terminal" = "TermSnap Terminal".
Proof. split; reflexivity. Qed.

(** C5. Order sensitivity: the shipped list turns the double-quoted
    [Nebula Terminal] into the double-quoted [TermSnap].  The four rules
    in front of the full-name rule leave the text alone, the full-name
    rule (fifth in the list) produces the result, and the short quoted
    rule comes later in the list (seventh), when nothing is left for it. *)
Theorem order_sensitivity :
  apply_rules replacements (dq ++ "Nebula Terminal" ++ dq) = dq ++ "TermSnap" ++ dq
  /\ replacements !! 4 = Some (dq ++ "Nebula Terminal" ++ dq, dq ++ "TermSnap" ++ dq)
  /\ replacements !! 6 = Some (dq ++ "Nebula" ++ dq, dq ++ "TermSnap" ++ dq)
  /\ apply_rules (take 4 replacements) (dq ++ "Nebula Terminal" ++ dq)
     = dq ++ "Nebula Terminal" ++ dq
  /\ apply_rules (take 5 replacements) (dq ++ "Nebula Terminal" ++ dq)
     = dq ++ "TermSnap" ++ dq
  /\ apply_rules (drop 5 replacements) (dq ++ "TermSnap" ++ dq)
     = dq ++ "TermSnap" ++ dq.
Proof. repeat split; vm_compute; reflexivity. Qed.

(** C6. End-to-end example: the shipped list turns
    [namespace Nebula.Core { }] into [namespace TermSnap.Core { }].  The
    first rule ([namespace Nebula]) alone produces the result; the text
    then holds no [Nebula.], so the dotted-prefix rule (tenth in the list)
    and every other rule leave it as it is. *)
Theorem end_to_end_example :
  apply_rules replacements "namespace Nebula.Core { }" = "namespace TermSnap.Core { }"
  /\ replacements !! 0 = Some ("namespace Nebula", "namespace TermSnap")
  /\ replacements !! 9 = Some ("Nebula.", "TermSnap.")
  /\ apply_rules (take 1 replacements) "namespace Nebula.Core { }"
     = "namespace TermSnap.Core { }"
  /\ occurs "Nebula." "namespace Nebula.Core { }" = true
  /\ occurs "Nebula." "namespace TermSnap.Core { }" = false
  /\ any_literal replacements "namespace TermSnap.Core { }" = false.
Proof. repeat split; vm_compute; reflexivity. Qed.

(** C2, as stated, fails: two matches that share a delimiter.  One
    application turns [/Nebula/Nebula/] into [/TermSnap/Nebula/] (the scan
    resumes behind the first match, whose last slash the second match
    needs); a second application finds [/Nebula/] and changes the text
    again. *)
Lemma rule_list_not_idempotent :
  apply_rules replacements "/Nebula/Nebula/" = "/TermSnap/Nebula/"
  /\ apply_rules replacements "/TermSnap/Nebula/" = "/TermSnap/TermSnap/"
  /\ ~ (forall content : string,
          apply_rules replacements (apply_rules replacements content)
          = apply_rules replacements content).
Proof.
  split; [reflexivity|]. split; [reflexivity|].
  intros H. specialize (H "/Nebula/Nebula/").
  vm_compute in H. discriminate H.
Qed.

End ShippedRules.

(* ===================================================================== *)
(** ** The claims about one file *)
(* ===================================================================== *)

Local Open Scope list_scope.

Section OneFile.

Import PyStr Rules.

(** The try block reads and writes; it prints nothing. *)
Lemma try_block_silent (p : path) (rules : list rule) (w w1 : world)
    (r : result bool) :
  replace_in_file_try p rules w = (r, w1) ->
  exists evs, log w1 = log w ++ evs /\ lines_of evs = [].
Proof.
  unfold replace_in_file_try, bind, read_text, write_text, ret, record.
  cbn [disk log].
  destruct (disk w !! p) as [f|] eqn:E; [destruct (data f) as [s|e]|].
  - destruct (negb _).
    + cbn [disk log]. rewrite E.
      match goal with
      | |- context [written f ?c] => destruct (written f c) as [[[]|e] f']
      end; intros [= _ <-]; cbn [log];
        exists [Opened p R; Opened p W]; by rewrite <- app_assoc.
    + intros [= _ <-]. by exists [Opened p R].
  - intros [= _ <-]. by exists [Opened p R].
  - intros [= _ <-]. by exists [Opened p R].
Qed.



(** C3. No-op preservation: when none of the search literals occurs in
    the text of a file, the transformed text is the text read, the call
    opens the file for reading and does nothing else (no write, nothing
    printed), the disk is as it was, and the call returns [False]. *)
Theorem no_op_preservation (file_path : path) (rules : list rule)
    (w : world) (f : file) (content : string) :
  disk w !! file_path = Some f ->
  data f = Ok content ->
  any_literal rules content = false ->
  apply_rules rules content = content
  /\ replace_in_file file_path rules w
     = (Ok false, World (disk w) (log w ++ [Opened file_path R])).
Proof.
  intros Hp Hd Hnone.
  pose proof (apply_rules_absent rules content Hnone) as Hsame.
  split; [done|].
  rewrite replace_in_file_run, Hp. unfold call_events. rewrite Hd.
  cbn zeta. rewrite Hsame, String.eqb_refl. cbn [negb].
  f_equal.
  - destruct f as [dat ow]. simpl in Hd. subst dat. unfold verdict.
    destruct ow; try done. by rewrite Hsame, String.eqb_refl.
  - f_equal. apply alter_same. intros f' Hf'. rewrite Hp in Hf'.
    injection Hf' as <-. unfold rewritten. rewrite Hd. cbn zeta.
    by rewrite Hsame, String.eqb_refl.
Qed.

Lemma no_op_preservation_witness :
  apply_rules replacements "class Core { }" = "class Core { }"
  /\ replace_in_file Scenario.third replacements (World Scenario.disk0 [])
     = (Ok false, World Scenario.disk0 ([] ++ [Opened Scenario.third R])).
Proof.
  apply (no_op_preservation Scenario.third replacements (World Scenario.disk0 [])
           (File (Ok "class Core { }") WriteOk) "class Core { }").
  - vm_compute. reflexivity.
  - reflexivity.
  - vm_compute. reflexivity.
Defined.

(** C2, amended. A second application of the shipped list gives the
    result of the first exactly when the result of the first holds none
    of the search literals; and on a file that can be read and written, a
    second call of [replace_in_file] returns [True] exactly when the text
    left by the first call still holds a search literal. *)
Theorem second_application (content : string) :
  (apply_rules replacements (apply_rules replacements content)
     = apply_rules replacements content
   <-> any_literal replacements (apply_rules replacements content) = false)
  /\ (forall (file_path : path) (w : world),
        disk w !! file_path = Some (File (Ok content) WriteOk) ->
        fst (replace_in_file file_path replacements
               (snd (replace_in_file file_path replacements w)))
        = Ok (any_literal replacements (apply_rules replacements content))).
Proof.
  split; [apply (apply_rules_fixed "N"), replacements_shed|].
  intros p w Hp. rewrite !replace_in_file_run. cbn [fst snd disk].
  rewrite lookup_alter_eq, Hp. f_equal.
  unfold rewritten, written. cbn [data on_write fmap option_fmap option_map snd].
  set (once := apply_rules replacements content).
  destruct (String.eqb_spec once content) as [Heq|Hne]; cbn [negb verdict].
  - fold once. rewrite Heq, String.eqb_refl. cbn [negb]. symmetry.
    apply (apply_rules_fixed "N"); [apply replacements_shed|].
    by rewrite <- Heq at 2.
  - destruct (any_literal replacements once) eqn:Hany.
    + apply negb_true_iff, String.eqb_neq.
      by apply (apply_rules_present "N"); [apply replacements_shed|].
    + apply negb_false_iff, String.eqb_eq.
      by apply apply_rules_absent.
Qed.

Lemma second_application_witness :
  fst (replace_in_file Scenario.first replacements
         (snd (replace_in_file Scenario.first replacements
                 (World Scenario.disk0 []))))
  = Ok (any_literal replacements
          (apply_rules replacements "namespace Nebula.Core { }")).
Proof.
  destruct (second_application "namespace Nebula.Core { }") as [_ H].
  apply H. vm_compute. reflexivity.
Defined.

(** C10. Read-side error atomicity.  When opening, reading or decoding
    the file raises, the call leaves the disk as it was: it opens the
    file for reading, prints the error line, returns [False] and never
    opens the file for writing.  In general a call opens for writing
    only the file it was given, only after a read that succeeded, and
    only when the transformed text differs from the text read. *)
Theorem read_error_atomicity (file_path : path) (rules : list rule) (w : world) :
  (forall e w1,
     read_text file_path w = (Raise e, w1) ->
     replace_in_file file_path rules w
       = (Ok false,
          World (disk w)
                (log w ++ [Opened file_path R; Printed (LError file_path e)])))
  /\ (forall q,
        Opened q W ∈ log (snd (replace_in_file file_path rules w)) ->
        Opened q W ∈ log w
        \/ (q = file_path
            /\ exists s w1,
                 read_text file_path w = (Ok s, w1)
                 /\ apply_rules rules s <> s)).
Proof.
  split.
  - intros e w1. unfold replace_in_file, try_except, replace_in_file_try, bind.
    intros Hread. rewrite Hread.
    unfold read_text in Hread.
    destruct (disk w !! file_path) as [f|]; [destruct (data f)|];
      try done; injection Hread as <- <-;
      unfold print, ret, record; cbn [disk log]; by rewrite <- app_assoc.
  - intros q. rewrite replace_in_file_run. cbn [snd log].
    intros [H|H]%elem_of_app; [by left|right].
    pose proof (call_events_open rules _ _ _ _ H) as ->. split; [done|].
    unfold call_events in H. apply elem_of_cons in H as [H|H]; [done|].
    unfold read_text.
    destruct (disk w !! file_path) as [f|].
    + destruct (data f) as [s|e].
      * destruct (String.eqb_spec (apply_rules rules s) s) as [Heq|Hne].
        -- cbn [negb] in H. by apply elem_of_nil in H.
        -- by eexists _, _.
      * apply elem_of_cons in H as [H|H]; [done|by apply elem_of_nil in H].
    + apply elem_of_cons in H as [H|H]; [done|by apply elem_of_nil in H].
Qed.

Lemma read_error_atomicity_witness :
  replace_in_file Scenario.second replacements (World Scenario.disk0 [])
    = (Ok false,
       World Scenario.disk0
             ([] ++ [Opened Scenario.second R;
                     Printed (LError Scenario.second Scenario.undecodable)])).
Proof.
  destruct (read_error_atomicity Scenario.second replacements
              (World Scenario.disk0 [])) as [H _].
  apply (H Scenario.undecodable (World Scenario.disk0 [Opened Scenario.second R])).
  vm_compute. reflexivity.
Defined.

End OneFile.

(* ===================================================================== *)
(** ** The claims about the whole run *)
(* ===================================================================== *)

Section WholeRun.

Import PyStr Rules.

Lemma returns_true_verdict (rules : list rule) (d : gmap path file) (p : path) :
  returns_true rules d p = verdict rules (d !! p).
Proof. unfold returns_true. by rewrite replace_in_file_run. Qed.

Lemma changed_count_returns (rules : list rule) (d : gmap path file)
    (files : list path) :
  changed_count rules d files = length (List.filter (returns_true rules d) files).
Proof.
  unfold changed_count. f_equal. apply List.filter_ext.
  intros p. by rewrite returns_true_verdict.
Qed.

(** A name that ends in [.txt] is in the scope of no pass. *)
Lemma txt_out_of_scope (p : path) (name : string) :
  last p = Some name -> endswith ".txt" name = true -> in_scope p = false.
Proof.
  intros Hlast Htxt. rewrite <- (fnmatch_star ".txt") in Htxt by reflexivity.
  destruct (in_scope p) eqn:Hs; [exfalso|done].
  unfold in_scope, other_patterns in Hs. cbn [existsb] in Hs.
  rewrite !orb_true_iff in Hs.
  decompose [or] Hs; try done;
    match goal with
    | H : globbed _ _ p = true |- _ =>
        apply globbed_name in H as (name' & Hn & Hm);
        rewrite Hlast in Hn; injection Hn as <-;
        by eapply (fnmatch_exclusive _ ".txt" name _ _ _ _ Hm Htxt)
    end.
  Unshelve. all: reflexivity.
Qed.


End WholeRun.

(* ===================================================================== *)
(** ** More about the rule list *)
(* ===================================================================== *)

Section RuleListMore.

Import PyStr Rules.

Lemma append_assoc3 (a b c : string) : (a +:+ b) +:+ c = a +:+ (b +:+ c).
Proof.
  induction a as [|x a IH]; [done|].
  rewrite !append_cons. by rewrite IH.
Qed.

Lemma startswith_app (p b : string) : startswith p (p +:+ b) = true.
Proof.
  induction p as [|x p IH]; [done|].
  rewrite append_cons. simpl. by rewrite Ascii.eqb_refl.
Qed.

(** [p in s] says that [s] is some text, then [p], then some text. *)
Lemma occurs_split (p s : string) :
  occurs p s = true <-> exists a b, s = a +:+ p +:+ b.
Proof.
  split.
  - induction s as [|c s IH]; cbn [occurs].
    + rewrite orb_false_r. intros H%startswith_split. by exists "", (skipn (String.length p) "").
    + intros [H|H]%orb_prop.
      * apply startswith_split in H. by exists "", (skipn (String.length p) (String c s)).
      * destruct (IH H) as (a & b & ->). by exists (String c a), b.
  - intros (a & b & ->). induction a as [|c a IH].
    + rewrite append_nil. destruct (p +:+ b) eqn:E; cbn [occurs];
        rewrite <- E, startswith_app; done.
    + rewrite append_cons. cbn [occurs]. by rewrite IH, orb_true_r.
Qed.

Lemma occurs_trans (p q s : string) :
  occurs p q = true -> occurs q s = true -> occurs p s = true.
Proof.
  intros (a & b & ->)%occurs_split (a' & b' & ->)%occurs_split.
  apply occurs_split. exists (a' +:+ a), (b +:+ b').
  by rewrite !append_assoc3.
Qed.

(** Every search literal of the shipped list holds [Nebula]. *)
Lemma literals_hold_nebula :
  Forall (fun r => occurs "Nebula" (fst r) = true) replacements.
Proof. repeat constructor. Qed.

Lemma nebula_free_no_literal (content : string) :
  occurs "Nebula" content = false -> any_literal replacements content = false.
Proof.
  intros Hfree. unfold any_literal.
  destruct (existsb _ _) eqn:E; [|done].
  apply existsb_exists in E as (r & Hr & Hocc).
  pose proof literals_hold_nebula as Hall.
  rewrite List.Forall_forall in Hall. specialize (Hall r Hr).
  by rewrite (occurs_trans _ _ _ Hall Hocc) in Hfree.
Qed.

(** X1. A text in which [Nebula] does not occur is left as it is by the
    shipped list, and a call on a file with such a text only reads it:
    nothing is written or printed and the call returns [False]. *)
Theorem nebula_free_untouched (file_path : path) (w : world) (f : file)
    (content : string) :
  disk w !! file_path = Some f ->
  data f = Ok content ->
  occurs "Nebula" content = false ->
  apply_rules replacements content = content
  /\ replace_in_file file_path replacements w
     = (Ok false, World (disk w) (log w ++ [Opened file_path R])).
Proof.
  intros Hp Hd Hfree.
  pose proof (apply_rules_absent _ _ (nebula_free_no_literal _ Hfree)) as Hsame.
  split; [done|].
  rewrite replace_in_file_run, Hp. unfold call_events. rewrite Hd.
  cbn zeta. rewrite Hsame, String.eqb_refl. cbn [negb].
  f_equal.
  - destruct f as [dat ow]. simpl in Hd. subst dat. unfold verdict.
    destruct ow; try done. by rewrite Hsame, String.eqb_refl.
  - f_equal. apply alter_same. intros f' Hf'. rewrite Hp in Hf'.
    injection Hf' as <-. unfold rewritten. rewrite Hd. cbn zeta.
    by rewrite Hsame, String.eqb_refl.
Qed.

Lemma nebula_free_untouched_witness :
  apply_rules replacements "class Core { }" = "class Core { }"
  /\ replace_in_file Scenario.third replacements (World Scenario.disk0 [])
     = (Ok false, World Scenario.disk0 ([] ++ [Opened Scenario.third R])).
Proof.
  apply (nebula_free_untouched Scenario.third (World Scenario.disk0 [])
           (File (Ok "class Core { }") WriteOk) "class Core { }").
  - vm_compute. reflexivity.
  - reflexivity.
  - vm_compute. reflexivity.
Defined.

Lemma count_apply_rules_lt (c : ascii) (rules : list rule) (s : string) :
  sheds c rules -> any_literal rules s = true ->
  count c (apply_rules rules s) < count c s.
Proof.
  unfold any_literal. intros H. revert s.
  induction H as [|r rules [Hnew Hold] Hrest IH]; intros s; cbn [existsb]; [done|].
  change (apply_rules (r :: rules) s) with (apply_rules rules (apply_rule s r)).
  destruct (occurs (fst r) s) eqn:Hocc; cbn [orb].
  - intros _.
    pose proof (count_apply_rules_le c rules (apply_rule s r) Hrest) as Hle.
    pose proof (count_replace_lt c _ _ s Hnew Hold Hocc) as Hlt.
    unfold apply_rule in *. lia.
  - unfold apply_rule. rewrite replace_absent by done. apply IH.
Qed.

(** X2. The shipped list never adds a capital N to a text, and whenever
    it changes a text it takes at least one away. *)
Theorem rules_shed_capital_n (content : string) :
  count "N" (apply_rules replacements content) <= count "N" content
  /\ (apply_rules replacements content <> content ->
      count "N" (apply_rules replacements content) < count "N" content).
Proof.
  split; [apply count_apply_rules_le, replacements_shed|].
  intros Hne. apply count_apply_rules_lt; [apply replacements_shed|].
  destruct (any_literal replacements content) eqn:E; [done|].
  by apply apply_rules_absent in E.
Qed.

Lemma rules_shed_capital_n_witness :
  count "N" (apply_rules replacements "/Nebula/Nebula/") < count "N" "/Nebula/Nebula/".
Proof.
  destruct (rules_shed_capital_n "/Nebula/Nebula/") as [_ H].
  apply H. vm_compute. discriminate.
Defined.

Lemma iter_fixed (n : nat) (s : string) :
  apply_rules replacements s = s ->
  Nat.iter n (apply_rules replacements) s = s.
Proof.
  intros H. induction n as [|n IH]; [done|].
  change (Nat.iter (S n) (apply_rules replacements) s)
    with (apply_rules replacements (Nat.iter n (apply_rules replacements) s)).
  by rewrite IH.
Qed.

(** X3. Repeated runs settle: after as many applications of the shipped
    list as the text has capital letters N, one more application changes
    nothing. *)
Theorem repeated_runs_settle (content : string) (n : nat) :
  count "N" content <= n ->
  apply_rules replacements (Nat.iter n (apply_rules replacements) content)
  = Nat.iter n (apply_rules replacements) content.
Proof.
  revert content. induction n as [|n IH]; intros content Hn.
  - change (apply_rules replacements content = content).
    destruct (any_literal replacements content) eqn:E.
    + pose proof (count_apply_rules_lt "N" _ content replacements_shed E). lia.
    + by apply apply_rules_absent.
  - destruct (any_literal replacements content) eqn:E.
    + rewrite Nat.iter_succ_r. apply IH.
      pose proof (count_apply_rules_lt "N" _ content replacements_shed E). lia.
    + apply apply_rules_absent in E. by rewrite !iter_fixed.
Qed.

Lemma repeated_runs_settle_witness :
  apply_rules replacements
    (Nat.iter 2 (apply_rules replacements) "/Nebula/Nebula/")
  = Nat.iter 2 (apply_rules replacements) "/Nebula/Nebula/".
Proof.
  apply (repeated_runs_settle "/Nebula/Nebula/" 2). vm_compute. lia.
Defined.

End RuleListMore.

(* ===================================================================== *)
(** ** More about what a run leaves on the disk *)
(* ===================================================================== *)

Section DiskAfter.

Import PyStr Rules.

Lemma rewritten_healthy (rules : list rule) (s : string) :
  rewritten rules (File (Ok s) WriteOk) = File (Ok (apply_rules rules s)) WriteOk.
Proof.
  unfold rewritten, written. cbn [data on_write].
  destruct (String.eqb_spec (apply_rules rules s) s) as [Heq|Hne]; cbn [negb snd].
  - by rewrite Heq.
  - done.
Qed.

(** X4. Neither a call nor a run creates or removes an entry: the set
    of paths on the disk is the same afterwards, also when the path given
    to the call does not exist. *)
Theorem paths_are_kept (file_path : path) (rules : list rule) (w : world) :
  dom (disk (snd (replace_in_file file_path rules w))) = dom (disk w)
  /\ dom (disk (snd (main w))) = dom (disk w).
Proof.
  split.
  - rewrite replace_in_file_run. cbn [snd disk]. apply dom_alter_L.
  - rewrite main_run. cbn [snd disk]. unfold run_disk.
    by rewrite !processed_dom.
Qed.

(** X6. A run leaves as it is every file whose read raises and every
    file that refuses to be opened for writing, whatever its text and
    whether or not it is in scope. *)
Theorem run_keeps_unwritable (d : gmap path file) (p : path) (f : file) :
  d !! p = Some f ->
  (exists e, data f = Raise e) \/ (exists e, on_write f = OpenFails e) ->
  disk (snd (main (World d []))) !! p = Some f.
Proof.
  intros Hp Hbad. rewrite main_run. cbn [snd disk].
  rewrite run_disk_lookup, Hp. destruct (in_scope p); [|done].
  cbn [fmap option_fmap option_map]. f_equal.
  unfold rewritten, written. destruct Hbad as [[e He]|[e He]]; rewrite He.
  - done.
  - destruct (data f); [|done]. by destruct (negb _).
Qed.

Lemma run_keeps_unwritable_witness :
  disk (snd (main (World Scenario.disk2 []))) !! Scenario.first
  = Some (File (Ok "using Nebula;") (OpenFails Scenario.denied)).
Proof.
  apply (run_keeps_unwritable Scenario.disk2 Scenario.first).
  - vm_compute. reflexivity.
  - right. exists Scenario.denied. reflexivity.
Defined.



End DiskAfter.

(* ===================================================================== *)
(** ** More about what a run reads and prints *)
(* ===================================================================== *)

Section OutputOfRun.

Import PyStr Rules Observe.

(** The events of a pass are opens, error lines and [OK] lines. *)
Lemma pass_events_shape (rules : list rule) (d : gmap path file)
    (files : list path) (ev : event) :
  ev ∈ flat_map (turn_events rules d) files ->
  (exists p m, ev = Opened p m)
  \/ (exists p e, ev = Printed (LError p e))
  \/ (exists p, ev = Printed (LOk p)).
Proof.
  induction files as [|f files IH]; cbn [flat_map]; [by intros ?%elem_of_nil|].
  intros [H|H]%elem_of_app; [|by apply IH].
  unfold turn_events, call_events in H.
  repeat first
    [ apply elem_of_app in H as [H|H]
    | apply elem_of_cons in H as [->|H]
    | by apply elem_of_nil in H
    | by eauto 6
    | match type of H with
      | _ ∈ match ?o with _ => _ end => destruct o
      | _ ∈ (if ?b then _ else _) => destruct b
      end ].
Qed.

Lemma reads_app (a b : list event) : reads (a ++ b) = reads a ++ reads b.
Proof. apply flat_map_app. Qed.

Lemma reads_call (rules : list rule) (p : path) (o : option file) :
  reads (call_events rules p o) = [p].
Proof.
  unfold call_events, reads. cbn [flat_map app]. f_equal.
  destruct o as [f|]; [|done].
  destruct (data f); [|done].
  cbn zeta. destruct (negb _); [|done].
  by destruct (written f _).1.
Qed.

Lemma reads_pass (rules : list rule) (d : gmap path file) (files : list path) :
  reads (flat_map (turn_events rules d) files) = files.
Proof.
  induction files as [|f files IH]; [done|].
  cbn [flat_map]. unfold turn_events at 1.
  rewrite !reads_app, reads_call, IH.
  by destruct (verdict rules (d !! f)).
Qed.


Lemma ok_count_app (a b : list event) : ok_count (a ++ b) = ok_count a + ok_count b.
Proof. unfold ok_count. by rewrite List.filter_app, List.length_app. Qed.

Lemma ok_count_call (rules : list rule) (p : path) (o : option file) :
  ok_count (call_events rules p o) = 0.
Proof.
  unfold call_events, ok_count. cbn [List.filter].
  destruct o as [f|]; [|done].
  destruct (data f); [|done].
  cbn zeta. destruct (negb _); [|done].
  cbn [List.filter]. by destruct (written f _).1.
Qed.

Lemma ok_count_pass (rules : list rule) (d : gmap path file) (files : list path) :
  ok_count (flat_map (turn_events rules d) files) = changed_count rules d files.
Proof.
  induction files as [|f files IH]; [done|].
  cbn [flat_map]. unfold turn_events at 1.
  rewrite !ok_count_app, ok_count_call, IH.
  unfold changed_count. cbn [List.filter].
  by destruct (verdict rules (d !! f)).
Qed.

(** X9. The number shown on the [Total] line of a run is the number of
    [OK] lines the run has printed. *)
Theorem total_counts_ok_lines (d : gmap path file) :
  let evs := log (snd (main (World d []))) in
  Printed (LTotal (ok_count evs)) ∈ evs.
Proof.
  intros evs. unfold evs. rewrite main_run. cbn [snd log app].
  unfold run_events. apply elem_of_app. right.
  unfold pass_events, run_summary.
  rewrite !ok_count_app, !ok_count_pass.
  unfold summary. cbn [ok_count List.filter length].
  rewrite !Nat.add_0_r, !Nat.add_0_l, Nat.add_assoc.
  pattern_in_list.
Qed.

(** X10. On every [files changed] line of a run the changed count is at
    most the total. *)
Theorem changed_at_most_total (d : gmap path file) (g : group) (x y : nat) :
  Printed (LChanged g x y) ∈ log (snd (main (World d []))) -> x <= y.
Proof.
  rewrite main_run. cbn [snd log app].
  unfold run_events, pass_events, run_summary, summary.
  rewrite !elem_of_app, !elem_of_cons, !elem_of_nil.
  intros H. decompose [or] H; clear H; try done;
    first
      [ match goal with
        | H : _ ∈ flat_map _ _ |- _ =>
            apply pass_events_shape in H as [(?&?&?)|[(?&?&?)|(?&?)]]; done
        end
      | match goal with
        | H : Printed _ = Printed _ |- _ =>
            injection H as -> -> ->; apply List.filter_length_le
        end ].
Qed.

Lemma changed_at_most_total_witness : 1 <= 3.
Proof.
  apply (changed_at_most_total Scenario.disk0 CSharp 1 3).
  vm_compute. pattern_in_list.
Defined.

Lemma call_events_error (rules : list rule) (p q : path) (o : option file) (e : exn) :
  Printed (LError q e) ∈ call_events rules p o -> q = p /\ verdict rules o = false.
Proof.
  unfold call_events, verdict. intros [H|H]%elem_of_cons; [done|].
  destruct o as [[[s|e'] ow]|]; cbn [data] in H.
  - cbn zeta in H. destruct (negb _); [|by apply elem_of_nil in H].
    apply elem_of_cons in H as [H|H]; [done|].
    unfold written in H. cbn [on_write] in H.
    destruct ow; cbn [fst] in H; try by apply elem_of_nil in H.
    + apply elem_of_cons in H as [H|H]; [|by apply elem_of_nil in H].
      by injection H as -> _.
    + apply elem_of_cons in H as [H|H]; [|by apply elem_of_nil in H].
      by injection H as -> _.
  - apply elem_of_cons in H as [H|H]; [|by apply elem_of_nil in H].
    by injection H as -> _.
  - apply elem_of_cons in H as [H|H]; [|by apply elem_of_nil in H].
    by injection H as -> _.
Qed.

Lemma pass_error_lines (rules : list rule) (d : gmap path file)
    (files : list path) (q : path) (e : exn) :
  Printed (LError q e) ∈ flat_map (turn_events rules d) files ->
  q ∈ files /\ verdict rules (d !! q) = false.
Proof.
  induction files as [|f files IH]; cbn [flat_map]; [by intros ?%elem_of_nil|].
  intros [H|H]%elem_of_app.
  - unfold turn_events in H. apply elem_of_app in H as [H|H].
    + apply call_events_error in H as [-> Hv]. split; [by left|done].
    + destruct (verdict rules (d !! f)); [|by apply elem_of_nil in H].
      apply elem_of_cons in H as [H|H]; [done|by apply elem_of_nil in H].
  - destruct (IH H). split; [by right|done].
Qed.

(** X11. A run prints an error line only for a file of one of its three
    lists, and never prints both an [OK] line and an error line for the
    same file. *)
Theorem ok_and_error_exclude (d : gmap path file) (q : path) (e : exn) :
  Printed (LError q e) ∈ log (snd (main (World d []))) ->
  (q ∈ cs_files d \/ q ∈ xaml_files d \/ q ∈ other_files d)
  /\ Printed (LOk q) ∉ log (snd (main (World d []))).
Proof.
  rewrite main_run. cbn [snd disk log app]. intros H.
  assert (Hv : (q ∈ cs_files d \/ q ∈ xaml_files d \/ q ∈ other_files d)
               /\ verdict replacements (d !! q) = false).
  { unfold run_events, pass_events, run_summary, summary in H.
    rewrite !elem_of_app, !elem_of_cons, !elem_of_nil in H.
    decompose [or] H; clear H; try done;
      match goal with
      | H : _ ∈ flat_map _ _ |- _ => apply pass_error_lines in H as [? ?]; tauto
      end. }
  destruct Hv as [Hin Hv]. split; [done|].
  intros [_ Hok]%run_ok_lines. cbn [disk] in Hok. congruence.
Qed.

Lemma ok_and_error_exclude_witness :
  Printed (LOk Scenario.second) ∉ log (snd (main (World Scenario.disk0 []))).
Proof.
  apply (ok_and_error_exclude Scenario.disk0 Scenario.second Scenario.undecodable).
  vm_compute. pattern_in_list.
Defined.

End OutputOfRun.

(* ===================================================================== *)
(** ** More about discovery and about runs that find nothing to do *)
(* ===================================================================== *)

Section ScopeOfRun.

Import PyStr Rules Observe.

Lemma relative_to_cons (r : string) (p rest : path) :
  relative_to [r] p = Some rest <-> p = r :: rest.
Proof.
  destruct p as [|c p]; cbn [relative_to]; [done|].
  destruct (String.eqb_spec r c) as [->|Hne].
  - split; [by intros [= ->]|by intros [= ->]].
  - split; [done|]. intros [= ? ?]. done.
Qed.

(** X12. Which paths the three lists hold, by the shape of the path: a
    C# (XAML) file is an entry [src/.../name] whose name ends in [.cs]
    ([.xaml]), at any depth below [src]; an other file is an entry
    [.../name] at any depth below the root, [src] included, whose name
    ends in [.json], [.config], [.xml] or [.md]. *)
Theorem lists_by_path_shape (d : gmap path file) (p : path) :
  (p ∈ cs_files d <->
   is_Some (d !! p)
   /\ exists dir name, p = "src" :: dir ++ [name] /\ endswith ".cs" name = true)
  /\ (p ∈ xaml_files d <->
      is_Some (d !! p)
      /\ exists dir name, p = "src" :: dir ++ [name] /\ endswith ".xaml" name = true)
  /\ (p ∈ other_files d <->
      is_Some (d !! p)
      /\ exists dir name,
           p = dir ++ [name]
           /\ (endswith ".json" name = true \/ endswith ".config" name = true
               \/ endswith ".xml" name = true \/ endswith ".md" name = true)).
Proof.
  assert (Hsrc : forall suffix, literal suffix = true ->
            globbed SRC_DIR (String "*" suffix) p = true <->
            exists dir name, p = "src" :: dir ++ [name] /\ endswith suffix name = true).
  { intros suffix Hlit. unfold globbed, SRC_DIR, ROOT_DIR. cbn [app]. split.
    - destruct (relative_to ["src"] p) as [rest|] eqn:E; [|done].
      apply relative_to_cons in E as ->.
      destruct (last rest) as [name|] eqn:El; [|done].
      apply last_Some in El as [dir ->].
      rewrite fnmatch_star by done. by exists dir, name.
    - intros (dir & name & -> & Hend).
      rewrite (proj2 (relative_to_cons "src" _ (dir ++ [name])) eq_refl).
      rewrite last_snoc. by rewrite fnmatch_star. }
  assert (Hroot : forall suffix, literal suffix = true ->
            globbed ROOT_DIR (String "*" suffix) p = true <->
            exists dir name, p = dir ++ [name] /\ endswith suffix name = true).
  { intros suffix Hlit. unfold globbed, ROOT_DIR. cbn [relative_to]. split.
    - destruct (last p) as [name|] eqn:El; [|done].
      apply last_Some in El as [dir ->].
      rewrite fnmatch_star by done. by exists dir, name.
    - intros (dir & name & -> & Hend).
      rewrite last_snoc. by rewrite fnmatch_star. }
  split; [|split].
  - rewrite elem_of_cs_files, (Hsrc ".cs") by done. tauto.
  - rewrite elem_of_xaml_files, (Hsrc ".xaml") by done. tauto.
  - rewrite elem_of_other_files. unfold other_patterns. cbn [existsb].
    rewrite orb_false_r, !orb_true_iff.
    rewrite (Hroot ".json"), (Hroot ".config"), (Hroot ".xml"), (Hroot ".md") by done.
    split.
    + intros [H Hq]. split; [done|].
      destruct H as [(dir & name & -> & H)|[(dir & name & -> & H)
                     |[(dir & name & -> & H)|(dir & name & -> & H)]]];
        exists dir, name; tauto.
    + intros [Hq (dir & name & -> & H)]. split; [|done].
      destruct H as [H|[H|[H|H]]]; eauto 8.
Qed.

Lemma no_files_in_scope (d : gmap path file) :
  (forall p, is_Some (d !! p) -> in_scope p = false) ->
  cs_files d = [] /\ xaml_files d = [] /\ other_files d = [].
Proof.
  intros H.
  assert (Hnone : forall p,
            ~ (p ∈ cs_files d \/ p ∈ xaml_files d \/ p ∈ other_files d)).
  { intros p [Hs Hq]%in_scope_files. by rewrite (H p Hq) in Hs. }
  repeat split; apply elem_of_nil_inv; intros p Hp; apply (Hnone p); tauto.
Qed.

(** X14. When no entry of the disk is in scope (an empty project, or
    one without a file of the six kinds), a run still completes: it
    prints the three zero counts and the summary block with zeros, opens
    no file and leaves the disk as it is. *)
Theorem run_with_nothing_in_scope (w : world) :
  (forall p, is_Some (disk w !! p) -> in_scope p = false) ->
  main w = (Ok (), World (disk w) (log w ++ idle_output)).
Proof.
  intros H. destruct (no_files_in_scope _ H) as (Hc & Hx & Ho).
  rewrite main_run. unfold run_disk, run_events, pass_events, run_summary.
  by rewrite Hc, Hx, Ho.
Qed.

Lemma run_with_nothing_in_scope_witness :
  main (World ∅ []) = (Ok (), World ∅ ([] ++ idle_output)).
Proof.
  apply (run_with_nothing_in_scope (World ∅ [])).
  intros p [f Hf]. cbn [disk] in Hf. by rewrite lookup_empty in Hf.
Defined.

Lemma verdict_rewritten (o : option file) :
  verdict replacements (rewritten replacements <$> o) = leftover replacements o.
Proof.
  destruct o as [[[s|e] ow]|]; cbn [fmap option_fmap option_map]; [|done|done].
  destruct ow as [|e|e k].
  - rewrite rewritten_healthy. unfold verdict, leftover.
    destruct (any_literal replacements (apply_rules replacements s)) eqn:E.
    + apply negb_true_iff, String.eqb_neq.
      by apply (apply_rules_present "N"); [apply replacements_shed|].
    + apply negb_false_iff, String.eqb_eq. by apply apply_rules_absent.
  - unfold rewritten, written. cbn [data on_write snd]. by destruct (negb _).
  - unfold rewritten, written. cbn [data on_write snd]. by destruct (negb _).
Qed.

Lemma second_changed_count (d : gmap path file) (files : list path) :
  (forall p, p ∈ files -> in_scope p = true) ->
  changed_count replacements (run_disk d) files
  = length (List.filter (fun p => leftover replacements (d !! p)) files).
Proof.
  intros H. unfold changed_count. f_equal. apply List.filter_ext_in.
  intros p Hp%list_elem_of_In.
  by rewrite run_disk_lookup, (H p Hp), verdict_rewritten.
Qed.


End ScopeOfRun.

(* ===================================================================== *)
(** ** More about what a run writes *)
(* ===================================================================== *)

Section WritesOfRun.

Import PyStr Rules.

Lemma call_events_write (rules : list rule) (p q : path) (o : option file) :
  Opened q W ∈ call_events rules p o <->
  q = p /\ exists f s, o = Some f /\ data f = Ok s /\ apply_rules rules s <> s.
Proof.
  unfold call_events. rewrite elem_of_cons. split.
  - intros [H|H]; [done|].
    destruct o as [f|].
    + destruct (data f) as [s|e] eqn:Ed.
      * cbn zeta in H.
        destruct (String.eqb_spec (apply_rules rules s) s) as [Heq|Hne];
          cbn [negb] in H; [by apply elem_of_nil in H|].
        apply elem_of_cons in H as [H|H].
        -- injection H as ->. split; [done|]. by exists f, s.
        -- destruct (written f _).1; [by apply elem_of_nil in H|].
           apply elem_of_cons in H as [H|H]; [done|by apply elem_of_nil in H].
      * apply elem_of_cons in H as [H|H]; [done|by apply elem_of_nil in H].
    + apply elem_of_cons in H as [H|H]; [done|by apply elem_of_nil in H].
  - intros [-> (f & s & -> & Hd & Hne)]. right. rewrite Hd. cbn zeta.
    apply String.eqb_neq in Hne. rewrite Hne. cbn [negb]. by left.
Qed.

Lemma pass_writes (rules : list rule) (d : gmap path file) (files : list path)
    (q : path) :
  Opened q W ∈ flat_map (turn_events rules d) files <->
  q ∈ files /\ exists f s, d !! q = Some f /\ data f = Ok s
                           /\ apply_rules rules s <> s.
Proof.
  induction files as [|f files IH]; cbn [flat_map].
  - rewrite !elem_of_nil. tauto.
  - rewrite elem_of_app, IH, elem_of_cons. unfold turn_events.
    rewrite elem_of_app, call_events_write. split.
    + intros [[[-> H]|H]|[H1 H2]]; [tauto| |tauto].
      destruct (verdict rules (d !! f)); [|by apply elem_of_nil in H].
      apply elem_of_cons in H as [H|H]; [done|by apply elem_of_nil in H].
    + intros [[->|H1] H2]; tauto.
Qed.


End WritesOfRun.

(* ===================================================================== *)
(** ** One call in the general environment *)
(* ===================================================================== *)

Section EnvCall.

Import Rules.

Variable rules : list rule.

Lemma alter_at (g : file -> file) (i : nat) (m : gmap nat file) (f : file) :
  m !! i = Some f -> <[i := g f]> m = alter g i m.
Proof.
  intros H. apply map_eq. intros j. rewrite lookup_alter, lookup_insert.
  case_decide; subst; by rewrite ?H.
Qed.

Lemma alter_idle (g : file -> file) (i : nat) (m : gmap nat file) :
  (forall f, m !! i = Some f -> g f = f) -> alter g i m = m.
Proof.
  intros H. apply map_eq. intros j. rewrite lookup_alter.
  case_decide; subst; [|done].
  destruct (m !! j) as [f|] eqn:E; simpl; [|done]. by rewrite H.
Qed.

(** What the try block does, in one equation. *)
Lemma env_try_run (p : path) (w : Env.world) :
  Script.replace_in_file_try p rules w =
    (match Script.failure rules (Env.lookup_file w p) with
     | Some e => Raise e
     | None => Ok (verdict rules (Env.lookup_file w p))
     end,
     Env.World (Env.names w) (Script.files_after rules w p) (Env.encodes w)
               (Env.log w ++ Script.opens rules p (Env.lookup_file w p))).
Proof.
  destruct w as [nm fs enc l].
  unfold Script.replace_in_file_try, Env.bind, Env.read_text, Env.write_text,
    Env.ret, Env.record, Script.files_after, Env.lookup_file.
  cbn [Env.names Env.files Env.encodes Env.log].
  destruct (nm !! p) as [i|] eqn:En; [|done].
  destruct (fs !! i) as [[dat ow]|] eqn:Ef.
  - destruct dat as [s|e]; cbn [data].
    + unfold Script.failure, Script.opens, verdict. cbn [data on_write].
      destruct (String.eqb (apply_rules rules s) s) eqn:Eq; cbn [negb].
      * rewrite alter_idle; [by destruct ow|].
        intros f Hf. rewrite Ef in Hf. injection Hf as <-.
        unfold rewritten. cbn [data]. by rewrite Eq.
      * cbn [Env.names Env.files Env.encodes Env.log]. rewrite En, Ef.
        erewrite <- (alter_at (rewritten rules)) by exact Ef.
        unfold rewritten, written. cbn [data on_write]. rewrite Eq. cbn [negb].
        destruct ow; cbn [fst snd]; by rewrite <- ?app_assoc.
    + rewrite alter_idle; [done|].
      intros f Hf. rewrite Ef in Hf. by injection Hf as <-.
  - rewrite alter_idle; [done|]. intros f Hf. by rewrite Ef in Hf.
Qed.

(** What a call does, in one equation: the handler's [print] decides
    between [False] and an exception that leaves the call. *)
Lemma env_call_run (p : path) (w : Env.world) :
  Script.replace_in_file p rules w =
    let o := Env.lookup_file w p in
    let after := fun evs =>
      Env.World (Env.names w) (Script.files_after rules w p) (Env.encodes w)
                (Env.log w ++ Script.opens rules p o ++ evs) in
    match Script.failure rules o with
    | None => (Ok (verdict rules o), after [])
    | Some e =>
        if Env.printable w (LError p e)
        then (Ok false, after [Printed (LError p e)])
        else (Raise (UnicodeEncodeError "codec can't encode characters"), after [])
    end.
Proof.
  unfold Script.replace_in_file, Env.try_except. rewrite env_try_run.
  cbn zeta. destruct (Script.failure rules (Env.lookup_file w p)) as [e|].
  - unfold Env.bind, Env.print, Env.printable, Env.ret, Env.record.
    cbn [Env.names Env.files Env.encodes Env.log].
    destruct (forallb (Env.encodes w) (Env.texts (LError p e)));
      by rewrite ?app_nil_r, <- ?app_assoc.
  - by rewrite app_nil_r.
Qed.

Lemma failure_in_errors (o : option file) (e : exn) :
  Script.failure rules o = Some e -> e ∈ Script.errors_of o.
Proof.
  unfold Script.failure, Script.errors_of. destruct o as [[dat ow]|].
  - cbn [data on_write]. destruct dat as [s|e'].
    + cbn zeta. destruct (negb _); [|done].
      unfold written. cbn [on_write]. destruct ow; cbn [fst]; try done;
        intros [= ->]; cbn [app]; by left.
    + intros [= ->]. by left.
  - intros [= <-]. by left.
Qed.

Lemma errors_of_rewritten (o : option file) :
  Script.errors_of (rewritten rules <$> o) = Script.errors_of o.
Proof.
  destruct o as [[dat ow]|]; [|done]. cbn [fmap option_fmap option_map].
  unfold rewritten, written, Script.errors_of. cbn [data on_write].
  destruct dat as [s|e]; [|done].
  cbn zeta. destruct (negb _); [|done]. by destruct ow.
Qed.

Lemma opens_mention (p q : path) (o : option file) (ev : event) :
  ev ∈ Script.opens rules p o -> Script.mentions ev = Some q -> q = p.
Proof.
  unfold Script.opens. intros [->|H]%elem_of_cons; [by intros [= <-]|].
  destruct o as [[[s|e] ow]|]; try by apply elem_of_nil in H.
  destruct (negb _); [|by apply elem_of_nil in H].
  apply elem_of_cons in H as [->|H]; [by intros [= <-]|by apply elem_of_nil in H].
Qed.

(** A call works on the path it is given, whatever it returns. *)
Lemma env_call_within (p : path) (w w' : Env.world) (r : result bool) :
  Script.replace_in_file p rules w = (r, w') ->
  Script.within (fun q => q = p) w w'.
Proof.
  rewrite env_call_run. cbn zeta. intros H.
  assert (Hw : exists evs,
            w' = Env.World (Env.names w) (Script.files_after rules w p)
                           (Env.encodes w)
                           (Env.log w ++ Script.opens rules p (Env.lookup_file w p) ++ evs)
            /\ forall ev q, ev ∈ evs -> Script.mentions ev = Some q -> q = p).
  { destruct (Script.failure rules (Env.lookup_file w p)) as [e|].
    - destruct (Env.printable w (LError p e)); injection H as _ <-.
      + eexists. split; [done|]. intros ev q [->|Hev]%elem_of_cons; [by intros [= <-]|].
        by apply elem_of_nil in Hev.
      + exists []. split; [done|]. intros ev q Hev. by apply elem_of_nil in Hev.
    - injection H as _ <-. exists []. split; [done|].
      intros ev q Hev. by apply elem_of_nil in Hev. }
  destruct Hw as (evs & -> & Hevs). unfold Script.within, Script.news.
  cbn [Env.names Env.files Env.encodes Env.log]. rewrite drop_app_length.
  split; [done|]. split; [done|]. split; [|split; [done|split]].
  - intros i. unfold Script.files_after.
    destruct (Env.names w !! p) as [j|]; [|done].
    rewrite lookup_alter. case_decide; [subst|done]. apply errors_of_rewritten.
  - intros ev q [Hev|Hev]%elem_of_app.
    + intros Hm. by eapply opens_mention.
    + by apply Hevs.
  - intros i Hi. unfold Script.files_after.
    destruct (Env.names w !! p) as [j|] eqn:En; [|done].
    apply lookup_alter_ne. intros ->. by apply (Hi p).
Qed.

End EnvCall.

(* ===================================================================== *)
(** ** One pass in the general environment *)
(* ===================================================================== *)

Section EnvPass.

Import Rules.

Variable rules : list rule.

Lemma news_of (w w' : Env.world) (evs : list event) :
  Env.log w' = Env.log w ++ evs -> Script.news w w' = evs.
Proof. intros H. unfold Script.news. rewrite H. apply drop_app_length. Qed.

Lemma within_refl (S : path -> Prop) (w : Env.world) : Script.within S w w.
Proof.
  assert (Hn : Script.news w w = [])
    by (apply news_of; by rewrite app_nil_r).
  unfold Script.within. rewrite Hn, app_nil_r.
  repeat split; try done. intros ev q Hev. by apply elem_of_nil in Hev.
Qed.

Lemma within_trans (S : path -> Prop) (w1 w2 w3 : Env.world) :
  Script.within S w1 w2 -> Script.within S w2 w3 -> Script.within S w1 w3.
Proof.
  intros (Hn1 & He1 & Hr1 & Hl1 & Hm1 & Hf1) (Hn2 & He2 & Hr2 & Hl2 & Hm2 & Hf2).
  set (n12 := Script.news w1 w2) in *. set (n23 := Script.news w2 w3) in *.
  clearbody n12 n23.
  assert (Hl : Env.log w3 = Env.log w1 ++ (n12 ++ n23))
    by (by rewrite Hl2, Hl1, <- app_assoc).
  unfold Script.within. rewrite (news_of _ _ _ Hl).
  split; [congruence|]. split; [congruence|]. split; [|split; [done|split]].
  - intros i. by rewrite Hr2, Hr1.
  - intros ev q [Hev|Hev]%elem_of_app; eauto.
  - intros i Hi. rewrite Hf2; [by apply Hf1|]. by rewrite Hn1.
Qed.

Lemma within_mono (S S' : path -> Prop) (w w' : Env.world) :
  (forall q, S q -> S' q) -> Script.within S w w' -> Script.within S' w w'.
Proof.
  intros HS (Hn & He & Hr & Hl & Hm & Hf).
  repeat split; try done.
  - intros ev q Hev Hq. eauto.
  - intros i Hi. apply Hf. eauto.
Qed.

Lemma within_record (S : path -> Prop) (ev : event) (w : Env.world) :
  (forall q, Script.mentions ev = Some q -> S q) ->
  Script.within S w (Env.record ev w).
Proof.
  intros Hev. unfold Script.within.
  rewrite (news_of w (Env.record ev w) [ev]) by done.
  repeat split; try done.
  intros ev' q [->|H]%elem_of_cons; [apply Hev|by apply elem_of_nil in H].
Qed.

Lemma print_within (S : path -> Prop) (l : line) (w w' : Env.world)
    (r : result unit) :
  Env.print l w = (r, w') ->
  (forall q, Script.mentions (Printed l) = Some q -> S q) ->
  Script.within S w w'.
Proof.
  unfold Env.print. destruct (Env.printable w l); intros [= _ <-] Hl.
  - by apply within_record.
  - apply within_refl.
Qed.

Lemma bind_inv {A B} (m : Env.M A) (k : A -> Env.M B) (w w' : Env.world)
    (r : result B) :
  Env.bind m k w = (r, w') ->
  (exists a w1, m w = (Ok a, w1) /\ k a w1 = (r, w'))
  \/ (exists e, m w = (Raise e, w') /\ r = Raise e).
Proof.
  unfold Env.bind. destruct (m w) as [[a|e] w1].
  - intros H. left. by exists a, w1.
  - intros [= <- <-]. right. by exists e.
Qed.

(** A pass works on the paths of its list, whatever it returns. *)
Lemma process_within (files : list path) (n : nat) (w w' : Env.world)
    (r : result nat) :
  Script.process files rules n w = (r, w') ->
  Script.within (fun q => q ∈ files) w w'.
Proof.
  revert n w. induction files as [|f files IH]; intros n w.
  - intros [= _ <-]. apply within_refl.
  - cbn [Script.process].
    intros [(b & w1 & Hcall & Hrest)|(e & Hcall & _)]%bind_inv.
    + apply env_call_within in Hcall.
      apply (within_mono _ (fun q => q ∈ f :: files)) in Hcall;
        [|intros q ->; by left].
      eapply within_trans; [exact Hcall|].
      destruct b.
      * apply bind_inv in Hrest as [([] & w2 & Hpr & Hrest)|(e & Hpr & _)].
        -- eapply within_trans.
           ++ eapply print_within; [exact Hpr|]. intros q [= <-]. by left.
           ++ eapply within_mono; [|by eapply IH]. intros q Hq. by right.
        -- eapply print_within; [exact Hpr|]. intros q [= <-]. by left.
      * eapply within_mono; [|by eapply IH]. intros q Hq. by right.
    + eapply within_mono; [|by eapply env_call_within].
      intros q ->. by left.
Qed.

Lemma speaks_within (S : path -> Prop) (w w' : Env.world) (q : path) :
  Script.within S w w' -> Script.speaks w q -> Script.speaks w' q.
Proof.
  intros (Hn & He & Hr & _) [Hok Herr]. unfold Script.speaks, Env.printable in *.
  rewrite He. split; [done|]. intros e Hin. apply Herr.
  unfold Env.lookup_file in *. rewrite Hn in Hin.
  destruct (Env.names w !! q) as [i|]; [|done]. by rewrite <- Hr.
Qed.

Lemma failure_verdict (o : option file) (e : exn) :
  Script.failure rules o = Some e -> verdict rules o = false.
Proof.
  unfold Script.failure, verdict. destruct o as [[[s|e'] ow]|]; try done.
  cbn [data]. cbn zeta. destruct (negb _); [|done].
  unfold written. cbn [on_write]. by destruct ow.
Qed.

Lemma opens_no_ok (p q : path) (o : option file) :
  Printed (LOk q) ∉ Script.opens rules p o.
Proof.
  unfold Script.opens. intros [H|H]%elem_of_cons; [done|].
  destruct o as [[[s|e] ow]|]; try by apply elem_of_nil in H.
  destruct (negb _); [|by apply elem_of_nil in H].
  apply elem_of_cons in H as [H|H]; [done|by apply elem_of_nil in H].
Qed.

(** When the console can print for [p], a call on [p] returns: the flag,
    the files and the events are those of the sheltered call. *)
Lemma env_call_ok (p : path) (w : Env.world) :
  Script.speaks w p ->
  exists w',
    Script.replace_in_file p rules w = (Ok (verdict rules (Env.lookup_file w p)), w')
    /\ Env.files w' = Script.files_after rules w p
    /\ Opened p R ∈ Script.news w w'
    /\ (forall q, Printed (LOk q) ∉ Script.news w w').
Proof.
  intros [_ Herr]. rewrite env_call_run. cbn zeta.
  destruct (Script.failure rules (Env.lookup_file w p)) as [e|] eqn:Ef.
  - rewrite (Herr e (failure_in_errors rules _ _ Ef)).
    rewrite (failure_verdict _ _ Ef). eexists. split; [done|].
    cbn [Env.files]. split; [done|].
    erewrite news_of by done. split.
    + apply elem_of_app. left. by left.
    + intros q [H|H]%elem_of_app; [by apply opens_no_ok in H|].
      apply elem_of_cons in H as [H|H]; [done|by apply elem_of_nil in H].
  - eexists. split; [done|]. cbn [Env.files]. split; [done|].
    erewrite news_of by done. rewrite app_nil_r. split.
    + by left.
    + intros q H. by apply opens_no_ok in H.
Qed.

Lemma news_app (S S' : path -> Prop) (w1 w2 w3 : Env.world) :
  Script.within S w1 w2 -> Script.within S' w2 w3 ->
  Script.news w1 w3 = Script.news w1 w2 ++ Script.news w2 w3.
Proof.
  intros (_ & _ & _ & Hl1 & _) (_ & _ & _ & Hl2 & _).
  set (n12 := Script.news w1 w2) in *. set (n23 := Script.news w2 w3) in *.
  clearbody n12 n23. apply news_of. by rewrite Hl2, Hl1, <- app_assoc.
Qed.

(** One turn of the loop when the console can print for [f]: the call
    returns, the [OK] line is printed when the flag is [True], and the
    loop goes on. *)
Lemma turn_ok (f : path) (w : Env.world) :
  Script.speaks w f ->
  exists w2,
    (forall rest n,
       Script.process (f :: rest) rules n w
       = Script.process rest rules
           (if verdict rules (Env.lookup_file w f) then n + 1 else n) w2)
    /\ Script.within (fun q => q = f) w w2
    /\ Env.files w2 = Script.files_after rules w f
    /\ Opened f R ∈ Script.news w w2
    /\ (forall q, Printed (LOk q) ∈ Script.news w w2 <->
                  q = f /\ verdict rules (Env.lookup_file w f) = true).
Proof.
  intros Hsp. destruct (env_call_ok f w Hsp) as (w1 & Hcall & Hfiles & Hread & Hnook).
  pose proof (env_call_within _ _ _ _ _ Hcall) as Hw1.
  destruct (verdict rules (Env.lookup_file w f)) eqn:Ev.
  - assert (Hpr : Env.printable w1 (LOk f) = true).
    { by destruct (speaks_within _ _ _ f Hw1 Hsp). }
    assert (Hw2 : Script.within (fun q => q = f) w1 (Env.record (Printed (LOk f)) w1))
      by (apply within_record; by intros q [= <-]).
    exists (Env.record (Printed (LOk f)) w1).
    split; [|split; [|split; [|split]]].
    + intros rest n. cbn [Script.process]. unfold Env.bind at 1. rewrite Hcall.
      unfold Env.bind, Env.print. by rewrite Hpr.
    + by eapply within_trans.
    + done.
    + rewrite (news_app _ _ _ _ _ Hw1 Hw2). apply elem_of_app. by left.
    + intros q. rewrite (news_app _ _ _ _ _ Hw1 Hw2).
      rewrite (news_of w1 (Env.record (Printed (LOk f)) w1) [Printed (LOk f)]) by done.
      rewrite elem_of_app, elem_of_cons, elem_of_nil. split.
      * intros [H|[[= ->]|[]]]; [by apply Hnook in H|done].
      * intros [-> _]. right. by left.
  - exists w1. split; [|split; [|split; [|split]]]; try done.
    + intros rest n. cbn [Script.process]. unfold Env.bind at 1. by rewrite Hcall.
    + intros q. split; [by intros H%Hnook|by intros [_ ?]].
Qed.

(** A pass when the console can print for every file of the list: the
    pass returns and has read every file; and a file that has one name
    only in the list is rewritten by the one call on that name, which
    alone decides the [OK] line. *)
Lemma process_speaking (files : list path) (n : nat) (w : Env.world) :
  (forall q, q ∈ files -> Script.speaks w q) ->
  exists n' w',
    Script.process files rules n w = (Ok n', w')
    /\ (forall q, q ∈ files -> Opened q R ∈ Script.news w w')
    /\ (forall p i,
          NoDup files -> p ∈ files -> Env.names w !! p = Some i ->
          (forall q, q ∈ files -> Env.names w !! q = Some i -> q = p) ->
          Env.files w' !! i = rewritten rules <$> Env.files w !! i
          /\ (Printed (LOk p) ∈ Script.news w w' <->
              verdict rules (Env.files w !! i) = true)).
Proof.
  revert n w. induction files as [|f files IH]; intros n w Hsp.
  - exists n, w. split; [done|]. split; [by intros q ?%elem_of_nil|].
    intros p i _ Hp. by apply elem_of_nil in Hp.
  - destruct (turn_ok f w) as (w2 & Hstep & Hw2 & Hfiles & Hread & Hok);
      [apply Hsp; by left|].
    destruct (IH (if verdict rules (Env.lookup_file w f) then n + 1 else n) w2)
      as (n' & w' & Hproc & Hreads & Hsole).
    { intros q Hq. eapply speaks_within; [exact Hw2|]. apply Hsp. by right. }
    pose proof (process_within _ _ _ _ _ Hproc) as Hw'.
    pose proof (news_app _ _ _ _ _ Hw2 Hw') as Hnews.
    destruct Hw2 as (Hn2 & He2 & Hr2 & Hl2 & Hm2 & Hf2).
    exists n', w'. split; [by rewrite Hstep|]. split.
    + intros q [->|Hq]%elem_of_cons; rewrite Hnews; apply elem_of_app; auto.
    + intros p i [Hf Hnd]%NoDup_cons Hp Hnm Huniq.
      rewrite Hnews, elem_of_app, Hok.
      destruct (decide (p = f)) as [->|Hne].
      * assert (Hrest : forall q, q ∈ files -> Env.names w2 !! q <> Some i).
        { intros q Hq Hqi. rewrite Hn2 in Hqi.
          rewrite (Huniq q) in Hq; [done|by right|done]. }
        destruct Hw' as (_ & _ & _ & _ & Hm' & Hf').
        rewrite (Hf' i Hrest), Hfiles. unfold Script.files_after.
        rewrite Hnm, lookup_alter_eq. split; [done|].
        unfold Env.lookup_file. rewrite Hnm. split.
        -- intros [[_ H]|H]; [done|].
           apply (Hm' _ f) in H; done.
        -- intros H. by left.
      * apply elem_of_cons in Hp as [->|Hp]; [done|].
        assert (Hfi : Env.names w !! f <> Some i).
        { intros Hfi. apply Hne. symmetry. apply Huniq; [by left|done]. }
        destruct (Hsole p i Hnd Hp) as [Hfin Hline].
        { by rewrite Hn2. }
        { intros q Hq Hqi. rewrite Hn2 in Hqi. apply Huniq; [by right|done]. }
        rewrite (Hf2 i) in Hfin, Hline by (by intros q ->).
        split; [done|]. rewrite Hline. split; [|by right].
        intros [[? _]|H]; done.
Qed.

End EnvPass.

(* ===================================================================== *)
(** ** The whole run in the general environment *)
(* ===================================================================== *)

Section EnvRun.

Import Rules.

Lemma listing_lookup (w : Env.world) (p : path) :
  is_Some (Script.listing w !! p) <-> is_Some (Env.names w !! p).
Proof. unfold Script.listing. rewrite lookup_fmap. apply fmap_is_Some. Qed.

Lemma env_cs_files (w : Env.world) : Script.cs_files w = cs_files (Script.listing w).
Proof. unfold Script.cs_files, cs_files, Script.listing. by rewrite dom_fmap_L. Qed.

Lemma env_xaml_files (w : Env.world) :
  Script.xaml_files w = xaml_files (Script.listing w).
Proof. unfold Script.xaml_files, xaml_files, Script.listing. by rewrite dom_fmap_L. Qed.

Lemma env_other_files (w : Env.world) :
  Script.other_files w = other_files (Script.listing w).
Proof. unfold Script.other_files, other_files, Script.listing. by rewrite dom_fmap_L. Qed.

Lemma env_lists_names (w w' : Env.world) :
  Env.names w' = Env.names w ->
  Script.cs_files w' = Script.cs_files w
  /\ Script.xaml_files w' = Script.xaml_files w
  /\ Script.other_files w' = Script.other_files w.
Proof.
  intros H. unfold Script.cs_files, Script.xaml_files, Script.other_files.
  by rewrite H.
Qed.

(** The files of the three lists are the names in scope. *)
Lemma in_reach_files (w : Env.world) (p : path) :
  Script.in_reach w p <->
  p ∈ Script.cs_files w \/ p ∈ Script.xaml_files w \/ p ∈ Script.other_files w.
Proof.
  unfold Script.in_reach.
  rewrite env_cs_files, env_xaml_files, env_other_files, <- in_scope_files.
  by rewrite listing_lookup.
Qed.

Lemma env_extend_all_run (root : path) (patterns : list string) (acc : list path)
    (w : Env.world) :
  Script.extend_all root patterns acc w =
    (Ok (acc ++ flat_map (fun pattern =>
                   List.filter (globbed root pattern)
                               (elements (dom (Env.names w))))
                 patterns), w).
Proof.
  revert acc. induction patterns as [|pat patterns IH]; intros acc.
  - simpl. by rewrite app_nil_r.
  - cbn [Script.extend_all flat_map]. unfold Env.bind, Env.rglob. rewrite IH.
    by rewrite <- app_assoc.
Qed.

(** One step of a run: when the run so far and the step stay within [S],
    so does what follows, whether or not the step raises. *)
Lemma bind_within (S : path -> Prop) {A B} (m : Env.M A) (k : A -> Env.M B)
    (w wc w' : Env.world) (r : result B) :
  Script.within S w wc ->
  (forall rm w1, m wc = (rm, w1) -> Script.within S wc w1) ->
  (forall a w1, m wc = (Ok a, w1) -> Script.within S w w1 ->
                k a w1 = (r, w') -> Script.within S w w') ->
  Env.bind m k wc = (r, w') -> Script.within S w w'.
Proof.
  intros Hacc Hm Hk [(a & w1 & Hrun & Hrest)|(e & Hrun & _)]%bind_inv.
  - eapply Hk; [exact Hrun| |exact Hrest].
    eapply within_trans; [exact Hacc|by eapply Hm].
  - eapply within_trans; [exact Hacc|by eapply Hm].
Qed.

Lemma fixed_print (S : path -> Prop) (l : line) (w w' : Env.world)
    (r : result unit) :
  Script.mentions (Printed l) = None ->
  Env.print l w = (r, w') -> Script.within S w w'.
Proof.
  intros Hl H. eapply print_within; [exact H|]. intros q. by rewrite Hl.
Qed.

Lemma pass_in_reach (w wc w' : Env.world) (files : list path) (n : nat)
    (r : result nat) :
  (forall q, q ∈ files -> Script.in_reach w q) ->
  Script.process files replacements n wc = (r, w') ->
  Script.within (Script.in_reach w) wc w'.
Proof.
  intros Hsub H. eapply within_mono; [|by eapply process_within]. done.
Qed.

(** A run works on the names in scope only, also when it is cut short by
    an exception. *)
Lemma main_within (w w' : Env.world) (r : result unit) :
  Script.main w = (r, w') -> Script.within (Script.in_reach w) w w'.
Proof.
  assert (Hlists : forall wc, Script.within (Script.in_reach w) w wc ->
            Script.cs_files wc = Script.cs_files w
            /\ Script.xaml_files wc = Script.xaml_files w
            /\ Script.other_files wc = Script.other_files w).
  { intros wc (Hn & _). by apply env_lists_names. }
  unfold Script.main.
  unfold Env.bind at 1, Env.rglob at 1. fold (Script.cs_files w).
  eapply bind_within; [apply within_refl|intros; (eapply fixed_print; [|eassumption]; reflexivity)|].
  intros [] w1 _ A1.
  eapply bind_within; [exact A1| |].
  { intros rm w2 H. eapply pass_in_reach; [|exact H].
    intros q Hq. apply in_reach_files. tauto. }
  intros cs_changed w2 _ A2.
  unfold Env.bind at 1, Env.rglob at 1. fold (Script.xaml_files w2).
  destruct (Hlists w2 A2) as (_ & -> & _).
  eapply bind_within; [exact A2|intros; (eapply fixed_print; [|eassumption]; reflexivity)|].
  intros [] w3 _ A3.
  eapply bind_within; [exact A3| |].
  { intros rm w4 H. eapply pass_in_reach; [|exact H].
    intros q Hq. apply in_reach_files. tauto. }
  intros xaml_changed w4 _ A4.
  unfold Env.bind at 1. rewrite env_extend_all_run. cbn [app].
  fold other_patterns. fold (Script.other_files w4).
  destruct (Hlists w4 A4) as (_ & _ & ->).
  eapply bind_within; [exact A4|intros; (eapply fixed_print; [|eassumption]; reflexivity)|].
  intros [] w5 _ A5.
  eapply bind_within; [exact A5| |].
  { intros rm w6 H. eapply pass_in_reach; [|exact H].
    intros q Hq. apply in_reach_files. tauto. }
  intros other_changed w6 _ A6.
  eapply bind_within; [exact A6|intros; (eapply fixed_print; [|eassumption]; reflexivity)|]. intros [] w7 _ A7.
  eapply bind_within; [exact A7|intros; (eapply fixed_print; [|eassumption]; reflexivity)|]. intros [] w8 _ A8.
  eapply bind_within; [exact A8|intros; (eapply fixed_print; [|eassumption]; reflexivity)|]. intros [] w9 _ A9.
  eapply bind_within; [exact A9|intros; (eapply fixed_print; [|eassumption]; reflexivity)|]. intros [] w10 _ A10.
  eapply bind_within; [exact A10|intros; (eapply fixed_print; [|eassumption]; reflexivity)|]. intros [] w11 _ A11.
  eapply bind_within; [exact A11|intros; (eapply fixed_print; [|eassumption]; reflexivity)|]. intros [] w12 _ A12.
  intros H. eapply within_trans; [exact A12|].
  (eapply fixed_print; [|eassumption]; reflexivity).
Qed.

(** One pass of a run when the console can print for its files. *)
Lemma stage (files : list path) (n : nat) (wc : Env.world) :
  NoDup files ->
  (forall q, q ∈ files -> Script.speaks wc q) ->
  exists n' w',
    Script.process files replacements n wc = (Ok n', w')
    /\ Script.within (fun q => q ∈ files) wc w'
    /\ (forall q, q ∈ files -> Opened q R ∈ Script.news wc w')
    /\ (forall p i,
          Env.names wc !! p = Some i ->
          (forall q, Env.names wc !! q = Some i -> q = p) ->
          Env.files w' !! i
          = (if decide (p ∈ files)
             then rewritten replacements <$> Env.files wc !! i
             else Env.files wc !! i)
          /\ (Printed (LOk p) ∈ Script.news wc w' <->
              p ∈ files /\ verdict replacements (Env.files wc !! i) = true)).
Proof.
  intros Hnd Hsp.
  destruct (process_speaking replacements files n wc Hsp)
    as (n' & w' & Hproc & Hreads & Hsole).
  pose proof (process_within _ _ _ _ _ _ Hproc) as Hw.
  exists n', w'. split; [done|]. split; [done|]. split; [done|].
  intros p i Hnm Huniq. case_decide as Hp.
  - destruct (Hsole p i Hnd Hp Hnm) as [Hfin Hline]; [by intros q _; apply Huniq|].
    split; [done|]. rewrite Hline. tauto.
  - destruct Hw as (_ & _ & _ & _ & Hm & Hf). split.
    + apply Hf. intros q Hq Hqi. by rewrite (Huniq q Hqi) in Hq.
    + split; [|tauto]. intros H. by apply (Hm _ p) in H.
Qed.

Lemma fixed_print_ok (l : line) (w : Env.world) :
  Env.texts l = [] -> Env.print l w = (Ok (), Env.record (Printed l) w).
Proof. intros H. unfold Env.print, Env.printable. by rewrite H. Qed.

Lemma news_record (ev : event) (w : Env.world) :
  Script.news w (Env.record ev w) = [ev].
Proof. by apply news_of. Qed.

(** A run when the console can print for every name in scope: the run
    returns, has read every name in scope and ends with the summary
    block; and a file with one name only is rewritten by the one call on
    that name when the name is in scope, and is as it was otherwise. *)
Lemma main_speaking (w : Env.world) :
  Script.speaks_all w ->
  exists w' evs n1 n2 n3,
    Script.main w = (Ok (), w')
    /\ Script.within (Script.in_reach w) w w'
    /\ Script.news w w'
       = evs ++ summary n1 (length (Script.cs_files w))
                        n2 (length (Script.xaml_files w))
                        n3 (length (Script.other_files w))
    /\ (forall q, Script.in_reach w q -> Opened q R ∈ evs)
    /\ (forall p i,
          Env.names w !! p = Some i ->
          (forall q, Env.names w !! q = Some i -> q = p) ->
          Env.files w' !! i
          = (if in_scope p
             then rewritten replacements <$> Env.files w !! i
             else Env.files w !! i)
          /\ (Printed (LOk p) ∈ Script.news w w' <->
              in_scope p = true /\ verdict replacements (Env.files w !! i) = true)).
Proof.
  intros Hall.
  assert (Hsp : forall wc q, Script.within (Script.in_reach w) w wc ->
                             Script.in_reach w q -> Script.speaks wc q).
  { intros wc q Hwc [Hs Hq]. eapply speaks_within; [exact Hwc|]. by apply Hall. }
  assert (Hin : forall q, q ∈ Script.cs_files w \/ q ∈ Script.xaml_files w
                          \/ q ∈ Script.other_files w -> Script.in_reach w q)
    by (intros q; apply in_reach_files).
  (* the first pass *)
  set (wa := Env.record (Printed (LProcessing CSharp (length (Script.cs_files w)))) w).
  assert (Aa : Script.within (Script.in_reach w) w wa)
    by (apply within_record; intros q [=]).
  destruct (stage (Script.cs_files w) 0 wa) as (n1 & w1 & P1 & W1 & R1 & S1).
  { rewrite env_cs_files. apply cs_files_NoDup. }
  { intros q Hq. apply Hsp; [done|]. apply Hin. tauto. }
  assert (A1 : Script.within (Script.in_reach w) w w1).
  { eapply within_trans; [exact Aa|]. eapply within_mono; [|exact W1].
    intros q Hq. apply Hin. tauto. }
  (* the second pass *)
  set (wb := Env.record (Printed (LProcessing Xaml (length (Script.xaml_files w)))) w1).
  assert (Ab : Script.within (Script.in_reach w) w wb).
  { eapply within_trans; [exact A1|]. apply within_record; intros q [=]. }
  destruct (stage (Script.xaml_files w) 0 wb) as (n2 & w2 & P2 & W2 & R2 & S2).
  { rewrite env_xaml_files. apply xaml_files_NoDup. }
  { intros q Hq. apply Hsp; [done|]. apply Hin. tauto. }
  assert (A2 : Script.within (Script.in_reach w) w w2).
  { eapply within_trans; [exact Ab|]. eapply within_mono; [|exact W2].
    intros q Hq. apply Hin. tauto. }
  (* the third pass *)
  set (wc := Env.record (Printed (LProcessing Other (length (Script.other_files w)))) w2).
  assert (Ac : Script.within (Script.in_reach w) w wc).
  { eapply within_trans; [exact A2|]. apply within_record; intros q [=]. }
  destruct (stage (Script.other_files w) 0 wc) as (n3 & w3 & P3 & W3 & R3 & S3).
  { rewrite env_other_files. apply other_files_NoDup. }
  { intros q Hq. apply Hsp; [done|]. apply Hin. tauto. }
  assert (A3 : Script.within (Script.in_reach w) w w3).
  { eapply within_trans; [exact Ac|]. eapply within_mono; [|exact W3].
    intros q Hq. apply Hin. tauto. }
  (* the summary *)
  set (block := summary n1 (length (Script.cs_files w))
                        n2 (length (Script.xaml_files w))
                        n3 (length (Script.other_files w))).
  set (w' := Env.World (Env.names w3) (Env.files w3) (Env.encodes w3)
                       (Env.log w3 ++ block)).
  assert (Hmain : Script.main w = (Ok (), w')).
  { unfold Script.main.
    unfold Env.bind at 1, Env.rglob at 1. fold (Script.cs_files w).
    unfold Env.bind at 1. rewrite fixed_print_ok by done. fold wa.
    unfold Env.bind at 1. rewrite P1.
    unfold Env.bind at 1, Env.rglob at 1. fold (Script.xaml_files w1).
    destruct (env_lists_names w w1) as (_ & -> & _); [by destruct A1|].
    unfold Env.bind at 1. rewrite fixed_print_ok by done. fold wb.
    unfold Env.bind at 1. rewrite P2.
    unfold Env.bind at 1. rewrite env_extend_all_run. cbn [app].
    fold other_patterns. fold (Script.other_files w2).
    destruct (env_lists_names w w2) as (_ & _ & ->); [by destruct A2|].
    unfold Env.bind at 1. rewrite fixed_print_ok by done. fold wc.
    unfold Env.bind at 1. rewrite P3.
    unfold Env.bind. rewrite !fixed_print_ok by done.
    unfold Env.record. cbn [Env.names Env.files Env.encodes Env.log].
    unfold w', block, summary. by rewrite <- !app_assoc. }
  assert (A' : Script.within (Script.in_reach w) w3 w').
  { unfold Script.within.
    rewrite (news_of w3 w' block) by done.
    split; [done|]. split; [done|]. split; [done|]. split; [done|].
    split; [|done].
    intros e0 q0 Hev Hq. unfold block, summary in Hev.
    repeat (apply elem_of_cons in Hev as [->|Hev]; [done|]).
    by apply elem_of_nil in Hev. }
  set (evs := [Printed (LProcessing CSharp (length (Script.cs_files w)))]
              ++ Script.news wa w1
              ++ [Printed (LProcessing Xaml (length (Script.xaml_files w)))]
              ++ Script.news wb w2
              ++ [Printed (LProcessing Other (length (Script.other_files w)))]
              ++ Script.news wc w3).
  assert (Hnews : Script.news w w' = evs ++ block).
  { assert (Rb : Script.within (fun _ => True) w1 wb)
      by (by apply within_record).
    assert (Rc : Script.within (fun _ => True) w2 wc)
      by (by apply within_record).
    rewrite (news_app _ _ _ _ _ A3 A'), (news_of w3 w' block) by done. f_equal.
    rewrite (news_app _ _ _ _ _ Ac W3), (news_app _ _ _ _ _ A2 Rc),
      (news_app _ _ _ _ _ Ab W2), (news_app _ _ _ _ _ A1 Rb),
      (news_app _ _ _ _ _ Aa W1).
    unfold evs, wa, wb, wc. rewrite !news_record. by rewrite <- !app_assoc. }
  exists w', evs, n1, n2, n3.
  split; [exact Hmain|]. split; [by eapply within_trans|].
  split; [exact Hnews|]. split.
  - intros q Hq. apply in_reach_files in Hq. unfold evs. rewrite !elem_of_app.
    destruct Hq as [Hq|[Hq|Hq]]; [apply R1 in Hq|apply R2 in Hq|apply R3 in Hq]; tauto.
  - intros p i Hnm Huniq.
    assert (Na : Env.names wa = Env.names w) by (by destruct Aa).
    assert (Nb : Env.names wb = Env.names w) by (by destruct Ab).
    assert (Nc : Env.names wc = Env.names w) by (by destruct Ac).
    destruct (S1 p i) as [F1 L1]; [by rewrite Na|by rewrite Na|].
    destruct (S2 p i) as [F2 L2]; [by rewrite Nb|by rewrite Nb|].
    destruct (S3 p i) as [F3 L3]; [by rewrite Nc|by rewrite Nc|].
    change (Env.files wa) with (Env.files w) in *.
    change (Env.files wb) with (Env.files w1) in *.
    change (Env.files wc) with (Env.files w2) in *.
    change (Env.files w') with (Env.files w3).
    assert (Hcx : p ∈ Script.xaml_files w -> p ∈ Script.cs_files w -> False).
    { rewrite env_xaml_files, env_cs_files. intros Hx Hc. by eapply xaml_not_cs. }
    assert (Hco : p ∈ Script.other_files w ->
                  p ∈ Script.cs_files w \/ p ∈ Script.xaml_files w -> False).
    { rewrite env_other_files, env_cs_files, env_xaml_files. intros Ho Hc.
      destruct (other_not_src _ (Script.listing w) p Ho). tauto. }
    assert (Hscope : in_scope p = true <->
              p ∈ Script.cs_files w \/ p ∈ Script.xaml_files w
              \/ p ∈ Script.other_files w).
    { rewrite <- in_reach_files. unfold Script.in_reach. rewrite Hnm.
      split; [eauto|tauto]. }
    rewrite Hnews. unfold evs.
    rewrite !elem_of_app, !elem_of_cons, !elem_of_nil, L1, L2, L3.
    rewrite F3, F2, F1.
    repeat case_decide.
    all: try (exfalso; tauto).
    all: destruct (in_scope p) eqn:Es.
    all: try (exfalso;
              first [ assert (Hf : false = true) by (apply Hscope; tauto);
                      discriminate Hf
                    | assert (Hf := proj1 Hscope eq_refl); tauto ]).
    all: split; [reflexivity|].
    all: unfold block, summary; rewrite ?elem_of_cons, ?elem_of_nil.
    all: split; [intros Hline; decompose [or and] Hline; clear Hline; try done; tauto
                |intros [Hs Hv]; first [discriminate Hs|tauto]].
Qed.

End EnvRun.

(* ===================================================================== *)
(** ** The sheltered environment is the general one without links *)
(* ===================================================================== *)

Section Shelter.

Import Rules.

Lemma disk_of_lookup (w : Env.world) (p : path) :
  Script.disk_of w !! p = Env.lookup_file w p.
Proof.
  unfold Script.disk_of, Env.lookup_file. rewrite lookup_omap.
  by destruct (Env.names w !! p).
Qed.

Lemma disk_of_dom (w : Env.world) :
  Script.sheltered w -> dom (Script.disk_of w) = dom (Env.names w).
Proof.
  intros (_ & Hfile & _). apply set_eq. intros q.
  rewrite !elem_of_dom, disk_of_lookup. unfold Env.lookup_file.
  destruct (Env.names w !! q) as [i|] eqn:E.
  - split; [by eauto|]. intros _. by apply (Hfile q i).
  - split; by intros [? ?].
Qed.

Lemma call_events_split (rules : list rule) (p : path) (o : option file) :
  call_events rules p o
  = Script.opens rules p o
    ++ match Script.failure rules o with
       | Some e => [Printed (LError p e)]
       | None => []
       end.
Proof.
  unfold call_events, Script.opens, Script.failure.
  destruct o as [[[s|e] ow]|]; cbn [data]; try done.
  cbn zeta. destruct (negb _); [|done].
  by destruct (written _ _).1.
Qed.

Lemma disk_of_after (rules : list rule) (w : Env.world) (p : path) (l : list event) :
  Script.sheltered w ->
  Script.disk_of (Env.World (Env.names w) (Script.files_after rules w p)
                            (Env.encodes w) l)
  = alter (rewritten rules) p (Script.disk_of w).
Proof.
  intros (Hinj & _ & _). apply map_eq. intros q.
  rewrite lookup_alter, !disk_of_lookup. unfold Env.lookup_file, Script.files_after.
  cbn [Env.names Env.files].
  destruct (Env.names w !! p) as [i|] eqn:Ep.
  - case_decide as Hq; [subst q|].
    + rewrite Ep. apply lookup_alter_eq.
    + destruct (Env.names w !! q) as [j|] eqn:Eq; [|done].
      apply lookup_alter_ne. intros ->. apply Hq. by eapply Hinj.
  - case_decide as Hq; [subst q|]; [by rewrite Ep|done].
Qed.

Lemma sheltered_after (rules : list rule) (w : Env.world) (p : path) (l : list event) :
  Script.sheltered w ->
  Script.sheltered (Env.World (Env.names w) (Script.files_after rules w p)
                              (Env.encodes w) l).
Proof.
  intros (Hinj & Hfile & Henc). unfold Script.sheltered.
  cbn [Env.names Env.files Env.encodes]. split; [done|]. split; [|done].
  intros q j Hq. unfold Script.files_after.
  destruct (Env.names w !! p) as [i|]; [|by eapply Hfile].
  rewrite lookup_alter. case_decide; [subst|by eapply Hfile].
  apply fmap_is_Some. by eapply Hfile.
Qed.

Lemma simulates_ret {A} (a : A) : Script.simulates (Env.ret a) (FS.ret a).
Proof. by intros w Hw. Qed.

Lemma simulates_bind {A B} (m : Env.M A) (m0 : FS.M A)
    (k : A -> Env.M B) (k0 : A -> FS.M B) :
  Script.simulates m m0 -> (forall a, Script.simulates (k a) (k0 a)) ->
  Script.simulates (Env.bind m k) (FS.bind m0 k0).
Proof.
  intros Hm Hk w Hw. destruct (Hm w Hw) as [Em Hw1].
  unfold Env.bind, FS.bind. rewrite Em.
  destruct (m w) as [[a|e] w1]; cbn [fst snd] in *; [|done].
  by apply Hk.
Qed.

Lemma simulates_print (l : line) : Script.simulates (Env.print l) (FS.print l).
Proof.
  intros w Hw. unfold Env.print, Env.printable.
  assert (Hp : forallb (Env.encodes w) (Env.texts l) = true).
  { apply forallb_forall. intros s _. by apply Hw. }
  by rewrite Hp.
Qed.

Lemma simulates_rglob (root : path) (pattern : string) :
  Script.simulates (Env.rglob root pattern) (FS.rglob root pattern).
Proof.
  intros w Hw. unfold Env.rglob, FS.rglob. cbn [fst snd]. split; [|done].
  unfold Script.to_fs at 1. cbn [disk]. by rewrite disk_of_dom.
Qed.

Lemma simulates_call (p : path) (rules : list rule) :
  Script.simulates (Script.replace_in_file p rules) (replace_in_file p rules).
Proof.
  intros w Hw. rewrite env_call_run, replace_in_file_run. cbn zeta.
  unfold Script.to_fs. cbn [disk log].
  rewrite !disk_of_lookup, call_events_split.
  destruct (Script.failure rules (Env.lookup_file w p)) as [e|] eqn:Ef.
  - assert (Hp : Env.printable w (LError p e) = true).
    { apply forallb_forall. intros s _. by apply Hw. }
    rewrite Hp, (failure_verdict _ _ _ Ef). cbn [fst snd Env.log]. split.
    + by rewrite disk_of_after.
    + by apply sheltered_after.
  - cbn [fst snd Env.log]. split.
    + by rewrite disk_of_after.
    + by apply sheltered_after.
Qed.

Lemma simulates_process (files : list path) (rules : list rule) (n : nat) :
  Script.simulates (Script.process files rules n) (process files rules n).
Proof.
  revert n. induction files as [|f files IH]; intros n.
  - apply simulates_ret.
  - cbn [Script.process process]. apply simulates_bind; [apply simulates_call|].
    intros [|]; [|apply IH].
    apply simulates_bind; [apply simulates_print|]. intros _. apply IH.
Qed.

Lemma simulates_extend_all (root : path) (patterns : list string) (acc : list path) :
  Script.simulates (Script.extend_all root patterns acc) (extend_all root patterns acc).
Proof.
  revert acc. induction patterns as [|pat patterns IH]; intros acc.
  - apply simulates_ret.
  - cbn [Script.extend_all extend_all].
    apply simulates_bind; [apply simulates_rglob|]. intros found. apply IH.
Qed.

Lemma simulates_main : Script.simulates Script.main main.
Proof.
  unfold Script.main, main.
  repeat first
    [ apply simulates_print
    | apply simulates_rglob
    | apply simulates_process
    | apply simulates_extend_all
    | apply simulates_bind; [|intros ?] ].
Qed.

(** Without links, without a name that leads nowhere and on a console
    that encodes every text, a run in the general environment is the run
    in the sheltered one: the same result, the same events, and the same
    file under every path. *)
Theorem sheltered_run (w : Env.world) :
  Script.sheltered w ->
  main (FS.World (Script.disk_of w) (Env.log w))
  = (fst (Script.main w),
     FS.World (Script.disk_of (snd (Script.main w)))
              (Env.log (snd (Script.main w)))).
Proof. intros Hw. by destruct (simulates_main w Hw). Qed.

Lemma sheltered_run_witness :
  main (FS.World (Script.disk_of Linked.plain) [])
  = (fst (Script.main Linked.plain),
     FS.World (Script.disk_of (snd (Script.main Linked.plain)))
              (Env.log (snd (Script.main Linked.plain)))).
Proof.
  apply (sheltered_run Linked.plain). split; [|split].
  - intros p q i Hp Hq. unfold Linked.plain in *. cbn [Env.names] in *.
    repeat (rewrite lookup_insert in Hp; case_decide; [subst p|]);
      rewrite ?lookup_empty in Hp; try done;
      injection Hp as <-;
      repeat (rewrite lookup_insert in Hq; case_decide; [subst q|]);
      rewrite ?lookup_empty in Hq; done.
  - intros p i Hp. unfold Linked.plain in *. cbn [Env.names Env.files] in *.
    repeat (rewrite lookup_insert in Hp; case_decide; [subst p|]);
      rewrite ?lookup_empty in Hp; try done;
      injection Hp as <-; vm_compute; eauto.
  - done.
Defined.

End Shelter.

(* ===================================================================== *)
(** ** The claims that depend on the console and on links *)
(* ===================================================================== *)

Section GeneralClaims.

Import PyStr Rules.

Lemma speaks_all_total (w : Env.world) :
  (forall s, Env.encodes w s = true) -> Script.speaks_all w.
Proof.
  intros H p _ _. split; [|intros e _]; apply forallb_forall; by intros s _.
Qed.

Lemma lines_of_opens (rules : list rule) (p : path) (o : option file) :
  lines_of (Script.opens rules p o) = [].
Proof.
  unfold Script.opens, lines_of. cbn [flat_map app].
  destruct o as [[[s|e] ow]|]; try done. by destruct (negb _).
Qed.

Lemma lookup_after (rules : list rule) (w : Env.world) (p : path) (l : list event) :
  Env.lookup_file
    (Env.World (Env.names w) (Script.files_after rules w p) (Env.encodes w) l) p
  = rewritten rules <$> Env.lookup_file w p.
Proof.
  unfold Env.lookup_file, Script.files_after. cbn [Env.names Env.files].
  destruct (Env.names w !! p) as [i|]; [|done]. apply lookup_alter_eq.
Qed.







(** C9, as stated, fails: two source files with the same text, one of
    them read-only.  The call on the first returns [True] and rewrites
    it; the call on the second returns [False] and leaves it. *)
Lemma equal_text_unequal_flag :
  (data <$> Env.lookup_file Linked.twins ["src"; "A.cs"])
  = (data <$> Env.lookup_file Linked.twins ["src"; "B.cs"])
  /\ fst (Script.replace_in_file ["src"; "A.cs"] replacements Linked.twins) = Ok true
  /\ fst (Script.replace_in_file ["src"; "B.cs"] replacements Linked.twins) = Ok false
  /\ (data <$> Env.lookup_file (snd (Script.main Linked.twins)) ["src"; "A.cs"])
     = Some (Ok "using TermSnap;")
  /\ (data <$> Env.lookup_file (snd (Script.main Linked.twins)) ["src"; "B.cs"])
     = Some (Ok "using Nebula;").
Proof. repeat split; vm_compute; reflexivity. Qed.

(** C9, amended.  For files that can be read and written, the flag and
    the text left are a function of the text alone, whatever the path,
    the other files and the console.  In general they are a function of
    the file the path leads to (its text, or the error of the read, and
    how it takes a write) and of whether the console can print its error
    line.  A call changes no name and no file but the one its path leads
    to.  So in a pass over any list, from any count, and in a whole run,
    two worlds that hold the same file under a path leave it the same
    and print its [OK] line alike, when no other path of the pass (of the
    run: no other name) leads to that file and the console can print for
    the files processed. *)
Theorem independence_of_the_file (rules : list rule) :
  (forall p1 p2 w1 w2 s,
     Env.lookup_file w1 p1 = Some (File (Ok s) WriteOk) ->
     Env.lookup_file w2 p2 = Some (File (Ok s) WriteOk) ->
     fst (Script.replace_in_file p1 rules w1) = Ok (negb (apply_rules rules s =? s)%string)
     /\ fst (Script.replace_in_file p2 rules w2) = Ok (negb (apply_rules rules s =? s)%string)
     /\ Env.lookup_file (snd (Script.replace_in_file p1 rules w1)) p1
        = Some (File (Ok (apply_rules rules s)) WriteOk)
     /\ Env.lookup_file (snd (Script.replace_in_file p2 rules w2)) p2
        = Some (File (Ok (apply_rules rules s)) WriteOk))
  /\ (forall p1 p2 w1 w2,
        Env.lookup_file w1 p1 = Env.lookup_file w2 p2 ->
        (forall e, Env.printable w1 (LError p1 e) = Env.printable w2 (LError p2 e)) ->
        fst (Script.replace_in_file p1 rules w1) = fst (Script.replace_in_file p2 rules w2)
        /\ Env.lookup_file (snd (Script.replace_in_file p1 rules w1)) p1
           = Env.lookup_file (snd (Script.replace_in_file p2 rules w2)) p2)
  /\ (forall p w,
        Env.names (snd (Script.replace_in_file p rules w)) = Env.names w
        /\ forall i, Env.names w !! p <> Some i ->
             Env.files (snd (Script.replace_in_file p rules w)) !! i = Env.files w !! i)
  /\ (forall files1 files2 n1 n2 w1 w2 p i1 i2,
        (forall q, q ∈ files1 -> Script.speaks w1 q) ->
        (forall q, q ∈ files2 -> Script.speaks w2 q) ->
        NoDup files1 -> NoDup files2 -> p ∈ files1 -> p ∈ files2 ->
        Env.names w1 !! p = Some i1 -> Env.names w2 !! p = Some i2 ->
        (forall q, q ∈ files1 -> Env.names w1 !! q = Some i1 -> q = p) ->
        (forall q, q ∈ files2 -> Env.names w2 !! q = Some i2 -> q = p) ->
        Env.files w1 !! i1 = Env.files w2 !! i2 ->
        let w1' := snd (Script.process files1 rules n1 w1) in
        let w2' := snd (Script.process files2 rules n2 w2) in
        Env.files w1' !! i1 = Env.files w2' !! i2
        /\ (Printed (LOk p) ∈ Script.news w1 w1' <-> Printed (LOk p) ∈ Script.news w2 w2')).
Proof.
  split; [|split; [|split]].
  - intros p1 p2 w1 w2 s H1 H2.
    assert (Hone : forall p w,
              Env.lookup_file w p = Some (File (Ok s) WriteOk) ->
              fst (Script.replace_in_file p rules w)
                = Ok (negb (apply_rules rules s =? s)%string)
              /\ Env.lookup_file (snd (Script.replace_in_file p rules w)) p
                 = Some (File (Ok (apply_rules rules s)) WriteOk)).
    { intros p w H. rewrite env_call_run. cbn zeta. rewrite H.
      assert (Hf : Script.failure rules (Some (File (Ok s) WriteOk)) = None).
      { unfold Script.failure, written. cbn [data on_write fst].
        by destruct (negb _). }
      rewrite Hf. cbn [fst snd]. split; [done|].
      by rewrite lookup_after, H; cbn [fmap option_fmap option_map];
         rewrite rewritten_healthy. }
    destruct (Hone p1 w1 H1), (Hone p2 w2 H2). done.
  - intros p1 p2 w1 w2 Hsame Hpr. rewrite !env_call_run. cbn zeta.
    rewrite Hsame.
    destruct (Script.failure rules (Env.lookup_file w2 p2)) as [e|].
    + rewrite (Hpr e). destruct (Env.printable w2 (LError p2 e));
        cbn [fst snd]; by rewrite !lookup_after, Hsame.
    + cbn [fst snd]. by rewrite !lookup_after, Hsame.
  - intros p w. destruct (Script.replace_in_file p rules w) as [r w'] eqn:E.
    apply env_call_within in E as (Hn & _ & _ & _ & _ & Hf). cbn [snd].
    split; [done|]. intros i Hi. apply Hf. by intros q ->.
  - intros files1 files2 n1 n2 w1 w2 p i1 i2 Hs1 Hs2 Hd1 Hd2 Hp1 Hp2
           Hn1 Hn2 Hu1 Hu2 Hsame w1' w2'.
    destruct (process_speaking rules files1 n1 w1 Hs1) as (m1 & v1 & E1 & _ & K1).
    destruct (process_speaking rules files2 n2 w2 Hs2) as (m2 & v2 & E2 & _ & K2).
    destruct (K1 p i1 Hd1 Hp1 Hn1 Hu1) as [F1 L1].
    destruct (K2 p i2 Hd2 Hp2 Hn2 Hu2) as [F2 L2].
    unfold w1', w2'. rewrite E1, E2. cbn [snd].
    rewrite F1, F2, L1, L2, Hsame. done.
Qed.

Lemma independence_of_the_file_witness :
  fst (Script.replace_in_file ["src"; "A.cs"] replacements Linked.twins) = Ok true
  /\ Env.lookup_file
       (snd (Script.replace_in_file ["src"; "Z.cs"] replacements Linked.single))
       ["src"; "Z.cs"]
     = Some (File (Ok "using TermSnap;") WriteOk).
Proof.
  destruct (independence_of_the_file replacements) as (H & _).
  destruct (H ["src"; "A.cs"] ["src"; "Z.cs"] Linked.twins Linked.single
              "using Nebula;") as (Ha & _ & _ & Hz).
  - vm_compute. reflexivity.
  - vm_compute. reflexivity.
  - split; [exact Ha|exact Hz].
Defined.

(** X5. For a file that can be read and written and has one name only,
    when the console can print for every name in scope: if the name is
    in scope, a run leaves in the file the text the shipped list makes
    of its text; and the run changes the file exactly when the name is
    in scope and one of the search literals occurs in the text. *)
Theorem run_rewrites_sole_name (w : Env.world) (p : path) (i : nat) (s : string) :
  Script.speaks_all w ->
  Env.names w !! p = Some i ->
  (forall q, Env.names w !! q = Some i -> q = p) ->
  Env.files w !! i = Some (File (Ok s) WriteOk) ->
  let w' := snd (Script.main w) in
  (in_scope p = true ->
   Env.files w' !! i = Some (File (Ok (apply_rules replacements s)) WriteOk))
  /\ (Env.files w' !! i <> Env.files w !! i
      <-> in_scope p = true /\ any_literal replacements s = true).
Proof.
  intros Hall Hn Hu Hf w'.
  destruct (main_speaking w Hall) as (w2 & evs & n1 & n2 & n3 & Hm & _ & _ & _ & Hsole).
  unfold w'. rewrite Hm. cbn [snd].
  destruct (Hsole p i Hn Hu) as [-> _]. rewrite Hf.
  cbn [fmap option_fmap option_map]. rewrite rewritten_healthy.
  destruct (in_scope p); split; try done.
  - split.
    + intros Hne. split; [done|].
      destruct (any_literal replacements s) eqn:E; [done|].
      apply apply_rules_absent in E. by rewrite E in Hne.
    + intros [_ Hany] [= Heq].
      by apply (apply_rules_present "N" _ s replacements_shed Hany).
  - split; [done|]. by intros [? _].
Qed.

Lemma run_rewrites_sole_name_witness :
  Env.files (snd (Script.main Linked.single)) !! 9
  = Some (File (Ok "using TermSnap;") WriteOk).
Proof.
  destruct (run_rewrites_sole_name Linked.single ["src"; "Z.cs"] 9 "using Nebula;")
    as [H _].
  - intros p [j Hp] _. unfold Linked.single in Hp. cbn [Env.names] in Hp.
    rewrite lookup_insert in Hp. case_decide; [subst p|by rewrite lookup_empty in Hp].
    split; [reflexivity|]. intros e He. vm_compute in He.
    by apply elem_of_nil in He.
  - reflexivity.
  - intros q Hq. unfold Linked.single in Hq. cbn [Env.names] in Hq.
    rewrite lookup_insert in Hq. case_decide; [done|by rewrite lookup_empty in Hq].
  - reflexivity.
  - apply H. reflexivity.
Defined.

Lemma outside_src_out_of_scope (p : path) (name : string) :
  last p = Some name ->
  endswith ".cs" name = true \/ endswith ".xaml" name = true ->
  relative_to SRC_DIR p = None ->
  in_scope p = false.
Proof.
  intros Hlast Hext Hout.
  destruct (in_scope p) eqn:Hs; [exfalso|done].
  unfold in_scope, other_patterns, globbed in Hs. rewrite Hout in Hs.
  cbn [existsb orb] in Hs. fold (globbed ROOT_DIR "*.json" p) in Hs.
  fold (globbed ROOT_DIR "*.config" p) in Hs.
  fold (globbed ROOT_DIR "*.xml" p) in Hs.
  fold (globbed ROOT_DIR "*.md" p) in Hs.
  rewrite orb_false_r, !orb_true_iff in Hs.
  assert (Hm : fnmatch "*.cs" name = true \/ fnmatch "*.xaml" name = true).
  { rewrite !fnmatch_star by done. exact Hext. }
  decompose [or] Hs;
    match goal with
    | H : globbed _ _ p = true |- _ =>
        apply globbed_name in H as (name' & Hn & Hm');
        rewrite Hlast in Hn; injection Hn as <-
    end;
    destruct Hm as [Hm|Hm];
    (eapply (six_exclusive _ _ name _ _ _ Hm Hm')).
  Unshelve. all: first [ discriminate | pattern_in_six ].
Qed.

(** X13. A name that ends in [.cs] or [.xaml] and is not below [src]
    is out of every pass: a run, even one cut short by an exception,
    never opens it; and the file under it is left as it is when it has
    no other name. *)
Theorem sources_outside_src_not_opened (w : Env.world) (p : path) (name : string) :
  last p = Some name ->
  endswith ".cs" name = true \/ endswith ".xaml" name = true ->
  relative_to SRC_DIR p = None ->
  (forall m, Opened p m ∉ Script.news w (snd (Script.main w)))
  /\ (forall i, Env.names w !! p = Some i ->
                (forall q, Env.names w !! q = Some i -> q = p) ->
                Env.files (snd (Script.main w)) !! i = Env.files w !! i).
Proof.
  intros Hlast Hext Hout.
  pose proof (outside_src_out_of_scope p name Hlast Hext Hout) as Hs.
  destruct (Script.main w) as [r w'] eqn:Hmain. cbn [snd].
  pose proof (main_within _ _ _ Hmain) as (_ & _ & _ & _ & Hm & Hf).
  split.
  - intros m H. apply (Hm _ p) in H as [H _]; [|done]. by rewrite Hs in H.
  - intros i Hn Hu. apply Hf. intros q [Hq _] Hqi.
    rewrite (Hu q Hqi) in Hq. by rewrite Hs in Hq.
Qed.

Lemma sources_outside_src_not_opened_witness :
  Env.files (snd (Script.main Linked.stray)) !! 1 = Env.files Linked.stray !! 1.
Proof.
  destruct (sources_outside_src_not_opened Linked.stray ["tools"; "Gen.cs"] "Gen.cs")
    as [_ H].
  - reflexivity.
  - left. vm_compute. reflexivity.
  - reflexivity.
  - apply (H 1); [reflexivity|].
    intros q Hq. unfold Linked.stray in Hq. cbn [Env.names] in Hq.
    rewrite lookup_insert in Hq. case_decide; [done|by rewrite lookup_empty in Hq].
Defined.

End GeneralClaims.
